(** * ATS CV Optimizer: the file-ingestion pipeline and the generation contract

    A shallow embedding of [App.tsx] (the ingestion handlers of the [App]
    component) and of [services/geminiService.ts] (the two requesters), with
    the properties of the ingestion pipeline proved about it.

    - JavaScript strings are sequences of UTF-16 code units ([jsstring]).
    - A thrown value is a [JsError]; a computation either returns or throws,
      and the writes it made before throwing stay ([M]).
    - The external capabilities (document decoder, DOCX reader, canvas, image
      encoder, generation service) are the fields of a record the program
      is given; each call to one of them is recorded in the world's call
      log.  [console.error] is not modelled. *)

From Stdlib Require Import List NArith Arith String Ascii Bool Lia QArith Permutation.
Import ListNotations.

Set Warnings "-register-all".


Local Open Scope nat_scope.
Local Open Scope list_scope.

(** ** JavaScript strings *)

Module JsString.

Definition code_unit := N.
Definition jsstring := list code_unit.

(** An ASCII literal of the source as a sequence of code units. *)
Definition lit (s : string) : jsstring :=
  map N_of_ascii (list_ascii_of_string s).

Fixpoint eqb (a b : jsstring) : bool :=
  match a, b with
  | [], [] => true
  | x :: a', y :: b' => N.eqb x y && eqb a' b'
  | _, _ => false
  end.

(** The characters matched by [\s] and removed by [String.prototype.trim]:
    ECMAScript WhiteSpace and LineTerminator. *)
Definition isWhiteSpace (c : code_unit) : bool :=
  (c =? 0x09)%N || (c =? 0x0A)%N || (c =? 0x0B)%N || (c =? 0x0C)%N ||
  (c =? 0x0D)%N || (c =? 0x20)%N || (c =? 0xA0)%N || (c =? 0x1680)%N ||
  ((0x2000 <=? c)%N && (c <=? 0x200A)%N) ||
  (c =? 0x2028)%N || (c =? 0x2029)%N || (c =? 0x202F)%N ||
  (c =? 0x205F)%N || (c =? 0x3000)%N || (c =? 0xFEFF)%N.

Fixpoint trimStart (s : jsstring) : jsstring :=
  match s with
  | [] => []
  | c :: r => if isWhiteSpace c then trimStart r else s
  end.

Fixpoint trimEnd (s : jsstring) : jsstring :=
  match s with
  | [] => []
  | c :: r =>
      match trimEnd r with
      | [] => if isWhiteSpace c then [] else [c]
      | r' => c :: r'
      end
  end.

(** [String.prototype.trim]. *)
Definition trim (s : jsstring) : jsstring := trimEnd (trimStart s).

(** [s.split(/\s+/)]: the pieces between the maximal runs of white space.
    [cur] is the piece being read (reversed), [in_sep] tells that the last
    character read belongs to a separator.  A separator at the start or at
    the end of [s] gives an empty first or last piece, and the empty string
    gives the one piece [""]. *)
Fixpoint split_ws_from (cur : jsstring) (in_sep : bool) (s : jsstring)
  : list jsstring :=
  match s with
  | [] => [rev cur]
  | c :: r =>
      if isWhiteSpace c then
        if in_sep then split_ws_from cur true r
        else rev cur :: split_ws_from [] true r
      else split_ws_from (c :: cur) false r
  end.

Definition split_ws (s : jsstring) : list jsstring := split_ws_from [] false s.

(** [s.split(sep)] for a separator of one code unit. *)
Fixpoint split_on_from (sep : code_unit) (cur : jsstring) (s : jsstring)
  : list jsstring :=
  match s with
  | [] => [rev cur]
  | c :: r =>
      if (c =? sep)%N then rev cur :: split_on_from sep [] r
      else split_on_from sep (c :: cur) r
  end.

Definition split_on (sep : code_unit) (s : jsstring) : list jsstring :=
  split_on_from sep [] s.

Fixpoint startsWith (s pre : jsstring) : bool :=
  match pre, s with
  | [], _ => true
  | p :: pre', c :: s' => N.eqb c p && startsWith s' pre'
  | _ :: _, [] => false
  end.

(** [s.includes(sub)]. *)
Fixpoint includes (s sub : jsstring) : bool :=
  startsWith s sub ||
  match s with
  | [] => false
  | _ :: r => includes r sub
  end.

(** [arr.includes(x)] on an array of strings. *)
Definition array_includes (arr : list jsstring) (x : jsstring) : bool :=
  existsb (eqb x) arr.

(** [arr.join(sep)]. *)
Fixpoint join (sep : jsstring) (arr : list jsstring) : jsstring :=
  match arr with
  | [] => []
  | [x] => x
  | x :: rest => x ++ sep ++ join sep rest
  end.

(** The word count in the words of the specification: the number of maximal
    runs of characters that are not white space.  [in_word] tells that the
    character before [s] belongs to a word. *)
Fixpoint count_words (in_word : bool) (s : jsstring) : nat :=
  match s with
  | [] => 0
  | c :: r =>
      if isWhiteSpace c then count_words false r
      else (if in_word then 0 else 1) + count_words true r
  end.

Definition word_count (s : jsstring) : nat := count_words false s.

(** The last character of [s] is white space; [b] answers for the empty [s]. *)
Fixpoint ends_in_whitespace (b : bool) (s : jsstring) : bool :=
  match s with
  | [] => b
  | c :: r => ends_in_whitespace (isWhiteSpace c) r
  end.

End JsString.
Import JsString.


(** ** Thrown values and outcomes *)

(** A thrown value, as the handlers look at it: [err instanceof Error],
    [err instanceof SyntaxError], [err.name] and [err.message].  The values
    thrown here (by pdf.js, mammoth, the File API, the generation service and
    the program itself) all carry a string [message]. *)
Record JsError := mkError {
  instanceof_Error : bool;
  instanceof_SyntaxError : bool;
  name : jsstring;
  message : jsstring
}.

(** [new Error(msg)]. *)
Definition new_Error (msg : string) : JsError :=
  mkError true false (lit "Error") (lit msg).

(** [TypeError], thrown when a property of [undefined] is read. *)
Definition new_TypeError (msg : string) : JsError :=
  mkError true false (lit "TypeError") (lit msg).

(** The [SyntaxError] of [JSON.parse]. *)
Definition new_SyntaxError (msg : string) : JsError :=
  mkError true true (lit "SyntaxError") (lit msg).

Inductive Outcome (A : Type) : Type :=
| Returned (a : A)
| Threw (e : JsError).
Arguments Returned {A} a.
Arguments Threw {A} e.

(** ** Documents *)

Definition ArrayBuffer := list N.
Definition Bitmap := list N.

(** A [File]: its declared type and what [file.arrayBuffer()] settles to. *)
Record File := mkFile {
  type : jsstring;
  arrayBuffer : Outcome ArrayBuffer
}.

(** An item of a page's text content: a text item has [str], a marked-content
    item has not. *)
Inductive TextItem :=
| TextItemStr (str : jsstring)
| TextMarkedContent.

Record PDFPage := mkPage {
  getTextContent : Outcome (list TextItem);
  (** [page.render] on a canvas sized by the viewport of the given scale *)
  render : Q -> Outcome Bitmap
}.

Record PDFDocument := mkPdf {
  numPages : nat;
  getPage : nat -> Outcome PDFPage
}.

(** ** JSON values and the response schema *)

Inductive json :=
| JNull
| JBool (b : bool)
| JNumber (lexeme : jsstring)
| JString (s : jsstring)
| JArray (elements : list json)
| JObject (members : list (jsstring * json)).

(** The [Type.STRING], [Type.ARRAY] and [Type.OBJECT] schemas of
    [@google/genai]; the [description] annotations are left out. *)
Inductive Schema :=
| SchemaString
| SchemaArray (items : Schema)
| SchemaObject (properties : list (jsstring * Schema)) (required : list jsstring).

(** ** Generation requests *)

Inductive Part :=
| TextPart (text : jsstring)
| InlineDataPart (data : option jsstring) (mimeType : jsstring).

Inductive Contents :=
| PromptContents (prompt : jsstring)
| PartsContents (parts : list Part).

Record GenerationConfig := mkConfig {
  responseMimeType : jsstring;
  responseSchema : Schema
}.

Record GenerateContentParameters := mkRequest {
  model : jsstring;
  contents : Contents;
  config : option GenerationConfig
}.

(** ** The external capabilities *)

Record Capabilities := mkCaps {
  (** [pdfjsLib.getDocument(arrayBuffer).promise] *)
  pdfjs_getDocument : ArrayBuffer -> Outcome PDFDocument;
  (** [mammoth.extractRawText({ arrayBuffer })], its [value] *)
  mammoth_extractRawText : ArrayBuffer -> Outcome jsstring;
  (** whether [getContext('2d')] of the canvas created for page [i] is not null *)
  canvas_getContext : nat -> bool;
  (** [canvas.toDataURL(type, quality)] of a rendered canvas *)
  canvas_toDataURL : Bitmap -> jsstring -> Q -> jsstring;
  (** [ai.models.generateContent(request)], its [text] ([None] is [undefined]) *)
  ai_generateContent : GenerateContentParameters -> Outcome (option jsstring)
}.

(** The calls made to the capabilities, in the order they are made. *)
Inductive Call :=
| CallArrayBuffer
| CallGetDocument (buf : ArrayBuffer)
| CallGetPage (i : nat)
| CallGetTextContent (i : nat)
| CallGetViewport (i : nat) (scale : Q)
| CallGetContext (i : nat)
| CallRender (i : nat) (scale : Q)
| CallToDataURL (i : nat) (mime : jsstring) (quality : Q)
| CallExtractRawText (buf : ArrayBuffer)
| CallGenerateContent (request : GenerateContentParameters).

(** The calls of the OCR path: rendering, encoding and generation. *)
Definition is_ocr_call (c : Call) : bool :=
  match c with
  | CallGetViewport _ _ | CallGetContext _ | CallRender _ _
  | CallToDataURL _ _ _ | CallGenerateContent _ => true
  | _ => false
  end.

Definition is_generation_call (c : Call) : bool :=
  match c with
  | CallGenerateContent _ => true
  | _ => false
  end.

(** The pages fetched, rendered and encoded according to a log of calls. *)
Definition fetched_pages (log : list Call) : list nat :=
  flat_map (fun c => match c with CallGetPage i => [i] | _ => [] end) log.

Definition rendered_pages (log : list Call) : list (nat * Q) :=
  flat_map (fun c => match c with CallRender i s => [(i, s)] | _ => [] end) log.

Definition encoded_pages (log : list Call) : list (nat * jsstring * Q) :=
  flat_map (fun c => match c with
                     | CallToDataURL i mime q => [(i, mime, q)]
                     | _ => []
                     end) log.

(** ** The state of the [App] component *)

Record AppState := mkState {
  userCvFile : option File;
  userCvText : jsstring;
  jobDescriptionText : jsstring;
  optimizedCvData : option json;
  isLoading : bool;
  error : option jsstring;
  isCopied : bool;
  isParsing : bool;
  isScanning : bool;
  parsingError : option jsstring
}.

(** The initial values of the [useState] hooks. *)
Definition initialState : AppState :=
  mkState None [] [] None false None false false false None.

Record World := mkWorld {
  ui : AppState;
  calls : list Call
}.

Definition world0 : World := mkWorld initialState [].

(** ** Computations that may throw *)

Definition M (A : Type) : Type := World -> Outcome A * World.

Definition ret {A} (a : A) : M A := fun w => (Returned a, w).

Definition bind {A B} (m : M A) (k : A -> M B) : M B :=
  fun w =>
    match m w with
    | (Returned a, w') => k a w'
    | (Threw e, w') => (Threw e, w')
    end.

Definition throw {A} (e : JsError) : M A := fun w => (Threw e, w).

(** [try { body } catch (err) { handler }] *)
Definition try_catch {A} (body : M A) (handler : JsError -> M A) : M A :=
  fun w =>
    match body w with
    | (Returned a, w') => (Returned a, w')
    | (Threw e, w') => handler e w'
    end.

(** [try { body } finally { fin }] *)
Definition try_finally {A} (body : M A) (fin : M unit) : M A :=
  fun w =>
    match body w with
    | (o, w') =>
        match fin w' with
        | (Returned _, w'') => (o, w'')
        | (Threw e, w'') => (Threw e, w'')
        end
    end.

(** A call to a capability: it is logged, and its outcome is the result. *)
Definition call {A} (c : Call) (o : Outcome A) : M A :=
  fun w => (o, mkWorld (ui w) (calls w ++ [c])).

Definition modify_ui (f : AppState -> AppState) : M unit :=
  fun w => (Returned tt, mkWorld (f (ui w)) (calls w)).

Declare Scope js_scope.
Delimit Scope js_scope with js.
Notation "x <- m ;; k" := (bind m (fun x => k))
  (at level 61, m at next level, right associativity) : js_scope.
Notation "m ;; k" := (bind m (fun _ => k))
  (at level 61, right associativity) : js_scope.
Local Open Scope js_scope.

(** [for (...) { acc = body(i, acc) }] over the indices [idx]. *)
Fixpoint for_each {A} (idx : list nat) (body : nat -> A -> M A) (acc : A) : M A :=
  match idx with
  | [] => ret acc
  | i :: rest => acc' <- body i acc ;; for_each rest body acc'
  end.

(** The state setters. *)
Definition setUserCvFile (v : option File) : M unit :=
  modify_ui (fun s => mkState v (userCvText s) (jobDescriptionText s)
    (optimizedCvData s) (isLoading s) (error s) (isCopied s) (isParsing s)
    (isScanning s) (parsingError s)).

Definition setUserCvText (v : jsstring) : M unit :=
  modify_ui (fun s => mkState (userCvFile s) v (jobDescriptionText s)
    (optimizedCvData s) (isLoading s) (error s) (isCopied s) (isParsing s)
    (isScanning s) (parsingError s)).

Definition setOptimizedCvData (v : option json) : M unit :=
  modify_ui (fun s => mkState (userCvFile s) (userCvText s) (jobDescriptionText s)
    v (isLoading s) (error s) (isCopied s) (isParsing s)
    (isScanning s) (parsingError s)).

Definition setIsLoading (v : bool) : M unit :=
  modify_ui (fun s => mkState (userCvFile s) (userCvText s) (jobDescriptionText s)
    (optimizedCvData s) v (error s) (isCopied s) (isParsing s)
    (isScanning s) (parsingError s)).

Definition setError (v : option jsstring) : M unit :=
  modify_ui (fun s => mkState (userCvFile s) (userCvText s) (jobDescriptionText s)
    (optimizedCvData s) (isLoading s) v (isCopied s) (isParsing s)
    (isScanning s) (parsingError s)).

Definition setIsParsing (v : bool) : M unit :=
  modify_ui (fun s => mkState (userCvFile s) (userCvText s) (jobDescriptionText s)
    (optimizedCvData s) (isLoading s) (error s) (isCopied s) v
    (isScanning s) (parsingError s)).

Definition setIsScanning (v : bool) : M unit :=
  modify_ui (fun s => mkState (userCvFile s) (userCvText s) (jobDescriptionText s)
    (optimizedCvData s) (isLoading s) (error s) (isCopied s) (isParsing s)
    v (parsingError s)).

Definition setParsingError (v : option jsstring) : M unit :=
  modify_ui (fun s => mkState (userCvFile s) (userCvText s) (jobDescriptionText s)
    (optimizedCvData s) (isLoading s) (error s) (isCopied s) (isParsing s)
    (isScanning s) v).

(** The calls logged in [w'] since [w]. *)
Definition new_calls (w w' : World) : list Call :=
  skipn (List.length (calls w)) (calls w').

(** [m] neither reads nor writes the state of the component: from every
    world it has the same outcome and logs the same calls, all of them in [P]. *)
Definition emits {A} (P : Call -> Prop) (m : M A) : Prop :=
  exists (o : Outcome A) (l : list Call),
    Forall P l /\ forall w, m w = (o, mkWorld (ui w) (calls w ++ l)).

Definition get_ui : M AppState := fun w => (Returned (ui w), w).

(** ** [JSON.parse] *)

Module Json.

Definition isJsonWhiteSpace (c : code_unit) : bool :=
  (c =? 0x20)%N || (c =? 0x09)%N || (c =? 0x0A)%N || (c =? 0x0D)%N.

Fixpoint skip_ws (s : jsstring) : jsstring :=
  match s with
  | [] => []
  | c :: r => if isJsonWhiteSpace c then skip_ws r else s
  end.

Definition isDigit (c : code_unit) : bool := (0x30 <=? c)%N && (c <=? 0x39)%N.

Fixpoint take_digits (s : jsstring) : jsstring * jsstring :=
  match s with
  | [] => ([], [])
  | c :: r =>
      if isDigit c then let (d, r') := take_digits r in (c :: d, r')
      else ([], s)
  end.

(** The optional fraction of a number: [.] and at least one digit. *)
Definition parse_fraction (s : jsstring) : option (jsstring * jsstring) :=
  match s with
  | c :: r =>
      if (c =? 0x2E)%N then
        match take_digits r with
        | ([], _) => None
        | (d, r') => Some (c :: d, r')
        end
      else Some ([], s)
  | [] => Some ([], s)
  end.

(** The optional exponent of a number: [e] or [E], a sign, at least one digit. *)
Definition parse_exponent (s : jsstring) : option (jsstring * jsstring) :=
  match s with
  | c :: r =>
      if (c =? 0x65)%N || (c =? 0x45)%N then
        let (sign, r1) :=
          match r with
          | c1 :: r1 =>
              if (c1 =? 0x2B)%N || (c1 =? 0x2D)%N then ([c1], r1) else ([], r)
          | [] => ([], r)
          end in
        match take_digits r1 with
        | ([], _) => None
        | (d, r') => Some (c :: sign ++ d, r')
        end
      else Some ([], s)
  | [] => Some ([], s)
  end.

(** A JSON number; its lexeme is kept as it is written. *)
Definition parse_number (s : jsstring) : option (jsstring * jsstring) :=
  let (sign, s1) :=
    match s with
    | c :: r => if (c =? 0x2D)%N then ([c], r) else ([], s)
    | [] => ([], s)
    end in
  match s1 with
  | [] => None
  | c :: r =>
      let int_part :=
        if (c =? 0x30)%N then Some ([c], r)
        else if isDigit c then let (d, r') := take_digits r in Some (c :: d, r')
        else None in
      match int_part with
      | None => None
      | Some (i, r1) =>
          match parse_fraction r1 with
          | None => None
          | Some (f, r2) =>
              match parse_exponent r2 with
              | None => None
              | Some (e, r3) => Some (sign ++ i ++ f ++ e, r3)
              end
          end
      end
  end.

Definition hex_digit (c : code_unit) : option N :=
  if isDigit c then Some (c - 0x30)%N
  else if (0x41 <=? c)%N && (c <=? 0x46)%N then Some (c - 0x41 + 10)%N
  else if (0x61 <=? c)%N && (c <=? 0x66)%N then Some (c - 0x61 + 10)%N
  else None.

Definition hex4 (a b c d : code_unit) : option code_unit :=
  match hex_digit a, hex_digit b, hex_digit c, hex_digit d with
  | Some x, Some y, Some z, Some t => Some (((x * 16 + y) * 16 + z) * 16 + t)%N
  | _, _, _, _ => None
  end.

(** The character of a one-letter escape. *)
Definition unescape (c : code_unit) : option code_unit :=
  if (c =? 0x22)%N then Some 0x22%N
  else if (c =? 0x5C)%N then Some 0x5C%N
  else if (c =? 0x2F)%N then Some 0x2F%N
  else if (c =? 0x62)%N then Some 0x08%N
  else if (c =? 0x66)%N then Some 0x0C%N
  else if (c =? 0x6E)%N then Some 0x0A%N
  else if (c =? 0x72)%N then Some 0x0D%N
  else if (c =? 0x74)%N then Some 0x09%N
  else None.

(** A string, after its opening quote. *)
Fixpoint parse_string_body (acc : jsstring) (s : jsstring)
  : option (jsstring * jsstring) :=
  match s with
  | [] => None
  | c :: r =>
      if (c =? 0x22)%N then Some (rev acc, r)
      else if (c =? 0x5C)%N then
        match r with
        | [] => None
        | e :: r' =>
            if (e =? 0x75)%N then
              match r' with
              | h1 :: h2 :: h3 :: h4 :: r'' =>
                  match hex4 h1 h2 h3 h4 with
                  | Some u => parse_string_body (u :: acc) r''
                  | None => None
                  end
              | _ => None
              end
            else
              match unescape e with
              | Some u => parse_string_body (u :: acc) r'
              | None => None
              end
        end
      else if (c <? 0x20)%N then None
      else parse_string_body (c :: acc) r
  end.

(** [obj[key] = v] while an object is built: a key already there keeps its
    place and takes the new value. *)
Fixpoint define_property (key : jsstring) (v : json)
  (members : list (jsstring * json)) : list (jsstring * json) :=
  match members with
  | [] => [(key, v)]
  | (k, v') :: rest =>
      if JsString.eqb k key then (k, v) :: rest
      else (k, v') :: define_property key v rest
  end.

Fixpoint get_property (key : jsstring) (members : list (jsstring * json))
  : option json :=
  match members with
  | [] => None
  | (k, v) :: rest => if JsString.eqb k key then Some v else get_property key rest
  end.

Fixpoint parse_value (fuel : nat) (s : jsstring) {struct fuel}
  : option (json * jsstring) :=
  match fuel with
  | 0 => None
  | S fuel' =>
      match skip_ws s with
      | [] => None
      | c :: r =>
          if (c =? 0x7B)%N then
            match skip_ws r with
            | [] => None
            | c' :: r' =>
                if (c' =? 0x7D)%N then Some (JObject [], r')
                else parse_members fuel' [] r
            end
          else if (c =? 0x5B)%N then
            match skip_ws r with
            | [] => None
            | c' :: r' =>
                if (c' =? 0x5D)%N then Some (JArray [], r')
                else parse_elements fuel' [] r
            end
          else if (c =? 0x22)%N then
            match parse_string_body [] r with
            | Some (str, r') => Some (JString str, r')
            | None => None
            end
          else if startsWith (c :: r) (lit "true") then
            Some (JBool true, skipn 4 (c :: r))
          else if startsWith (c :: r) (lit "false") then
            Some (JBool false, skipn 5 (c :: r))
          else if startsWith (c :: r) (lit "null") then
            Some (JNull, skipn 4 (c :: r))
          else
            match parse_number (c :: r) with
            | Some (lexeme, r') => Some (JNumber lexeme, r')
            | None => None
            end
      end
  end
with parse_elements (fuel : nat) (acc : list json) (s : jsstring) {struct fuel}
  : option (json * jsstring) :=
  match fuel with
  | 0 => None
  | S fuel' =>
      match parse_value fuel' s with
      | None => None
      | Some (v, r) =>
          match skip_ws r with
          | [] => None
          | c :: r' =>
              if (c =? 0x2C)%N then parse_elements fuel' (acc ++ [v]) r'
              else if (c =? 0x5D)%N then Some (JArray (acc ++ [v]), r')
              else None
          end
      end
  end
with parse_members (fuel : nat) (acc : list (jsstring * json)) (s : jsstring)
  {struct fuel} : option (json * jsstring) :=
  match fuel with
  | 0 => None
  | S fuel' =>
      match skip_ws s with
      | [] => None
      | q :: r =>
          if (q =? 0x22)%N then
            match parse_string_body [] r with
            | None => None
            | Some (key, r1) =>
                match skip_ws r1 with
                | [] => None
                | c1 :: r2 =>
                    if (c1 =? 0x3A)%N then
                      match parse_value fuel' r2 with
                      | None => None
                      | Some (v, r3) =>
                          match skip_ws r3 with
                          | [] => None
                          | c3 :: r4 =>
                              if (c3 =? 0x2C)%N then
                                parse_members fuel' (define_property key v acc) r4
                              else if (c3 =? 0x7D)%N then
                                Some (JObject (define_property key v acc), r4)
                              else None
                          end
                      end
                    else None
                end
            end
          else None
      end
  end.

(** [JSON.parse(text)]: one value between optional white space, or a
    [SyntaxError].  Each level of nesting and each element takes at most two
    units of fuel and at least one character, hence the fuel given. *)
Definition parse (text : jsstring) : Outcome json :=
  match parse_value (2 * List.length text + 2) text with
  | Some (v, r) =>
      match skip_ws r with
      | [] => Returned v
      | _ :: _ => Threw (new_SyntaxError "Unexpected non-whitespace character after JSON")
      end
  | None => Threw (new_SyntaxError "Unexpected token in JSON")
  end.

(** A value conforms to a schema: a string for [Type.STRING], an array of
    conforming items for [Type.ARRAY], and for [Type.OBJECT] an object that
    has every required property and whose declared properties, when present,
    conform. *)
Fixpoint conforms (sc : Schema) (v : json) {struct sc} : bool :=
  match sc, v with
  | SchemaString, JString _ => true
  | SchemaArray items, JArray elements => forallb (conforms items) elements
  | SchemaObject properties required, JObject members =>
      forallb (fun k => match get_property k members with
                        | Some _ => true
                        | None => false
                        end) required &&
      (fix each (ps : list (jsstring * Schema)) : bool :=
         match ps with
         | [] => true
         | (k, sc') :: ps' =>
             match get_property k members with
             | Some v' => conforms sc' v'
             | None => true
             end && each ps'
         end) properties
  | _, _ => false
  end.

End Json.

(** ** [services/geminiService.ts] *)

(** The schema of the response, [cvSchema]. *)
Definition cvSchema : Schema :=
  SchemaObject
    [ (lit "fullName", SchemaString);
      (lit "contactInfo",
         SchemaObject
           [ (lit "email", SchemaString);
             (lit "phone", SchemaString);
             (lit "linkedin", SchemaString);
             (lit "location", SchemaString) ]
           [ lit "email"; lit "phone"; lit "location" ]);
      (lit "summary", SchemaString);
      (lit "workExperience",
         SchemaArray
           (SchemaObject
              [ (lit "jobTitle", SchemaString);
                (lit "company", SchemaString);
                (lit "location", SchemaString);
                (lit "dates", SchemaString);
                (lit "responsibilities", SchemaArray SchemaString) ]
              [ lit "jobTitle"; lit "company"; lit "dates"; lit "responsibilities" ]));
      (lit "education",
         SchemaArray
           (SchemaObject
              [ (lit "institution", SchemaString);
                (lit "degree", SchemaString);
                (lit "dates", SchemaString) ]
              [ lit "institution"; lit "degree"; lit "dates" ]));
      (lit "skills", SchemaArray SchemaString) ]
    [ lit "fullName"; lit "contactInfo"; lit "summary"; lit "workExperience";
      lit "education"; lit "skills" ].

(** The payload is a [CvData]: it conforms to [cvSchema]. *)
Definition is_CvData (v : json) : bool := Json.conforms cvSchema v.

Definition gemini_model : jsstring := lit "gemini-2.5-flash".

(** The prompt of [optimizeCvWithGemini], a template with two holes. *)
Definition optimize_prompt (currentUserCv jobDescription : jsstring) : jsstring :=
  lit "
You are a world-class professional CV writer and Applicant Tracking System (ATS) optimization expert. Your task is to rewrite a user's CV to perfectly align with a specific job description.

**You will be given two inputs:**
1.  **[CURRENT CV]**: The user's existing CV content.
2.  **[JOB DESCRIPTION]**: The target job description.

**Your instructions are:**
1.  **Analyze and Extract:** Thoroughly analyze the [CURRENT CV] to understand the user's experience, skills, and qualifications. Also, analyze the [JOB DESCRIPTION] to identify all key skills, qualifications, technologies, and responsibilities.
2.  **Rewrite and Integrate:** Modify the user's CV content by strategically and naturally weaving in the keywords from the job description. Enhance bullet points with quantifiable achievements and action verbs that match the target role.
3.  **Ensure Truthfulness:** The new content must be truthful and accurately reflect the user's experience. Do not invent experience or skills the user does not possess.
4.  **Populate the JSON:** Based on the rewritten content, populate the provided JSON schema. Ensure all fields are filled correctly and logically. The structure of the CV should follow a standard professional format: Summary, Work Experience, Skills, Education.

---

**[CURRENT CV]**
" ++ currentUserCv ++ lit "

---

**[JOB DESCRIPTION]**
" ++ jobDescription ++ lit "
".

(** The prompt of [extractTextFromImagesWithGemini]. *)
Definition ocr_prompt : jsstring :=
  lit "You are an Optical Character Recognition (OCR) expert. Extract all text content from these document pages in the order they are provided. Combine the text from all pages into a single block of text. Preserve the original structure, paragraphs, and line breaks as best as possible.".

(** The messages of the errors the two requesters throw. *)
Definition msg_invalid_json : string :=
  "The AI returned an invalid JSON format. Please try again.".
Definition msg_invalid_api_key : string :=
  "The API key is invalid. Please check your configuration.".
Definition msg_optimize_failed : string :=
  "Failed to generate optimized CV due to an API error.".
Definition msg_ocr_failed : string :=
  "Failed to extract text from the document image using AI.".

(** The request [extractTextFromImagesWithGemini] builds: the prompt, then
    the images as inline JPEG parts, in their order. *)
Definition ocrRequest (base64Images : list (option jsstring))
  : GenerateContentParameters :=
  let prompt := ocr_prompt in
  let imageParts :=
    map (fun img => InlineDataPart img (lit "image/jpeg")) base64Images in
  mkRequest gemini_model (PartsContents (TextPart prompt :: imageParts)) None.

(** The request [optimizeCvWithGemini] builds. *)
Definition optimizeRequest (currentUserCv jobDescription : jsstring)
  : GenerateContentParameters :=
  let prompt := optimize_prompt currentUserCv jobDescription in
  mkRequest gemini_model (PromptContents prompt)
    (Some (mkConfig (lit "application/json") cvSchema)).

Section Program.

Variable caps : Capabilities.

(** [optimizeCvWithGemini]: one generation call under [cvSchema]; the text of
    the response is trimmed, parsed with [JSON.parse] and returned under the
    cast [as CvData].  Reading [trim] of an [undefined] text throws a
    [TypeError] inside the [try]. *)
Definition optimizeCvWithGemini (currentUserCv jobDescription : jsstring) : M json :=
  let request := optimizeRequest currentUserCv jobDescription in
  try_catch
    (response_text <- call (CallGenerateContent request)
                           (ai_generateContent caps request) ;;
     jsonText <- match response_text with
                 | Some t => ret (trim t)
                 | None => throw (new_TypeError
                     "Cannot read properties of undefined (reading 'trim')")
                 end ;;
     parsedData <- (fun w => (Json.parse jsonText, w)) ;;
     ret parsedData)
    (fun error =>
       if instanceof_SyntaxError error then
         throw (new_Error msg_invalid_json)
       else if instanceof_Error error
               && includes (message error) (lit "API key not valid") then
         throw (new_Error msg_invalid_api_key)
       else throw (new_Error msg_optimize_failed)).

(** [extractTextFromImagesWithGemini]: one generation call whose parts are
    the prompt and then one inline JPEG part per image; the text of the
    response is returned as it is. *)
Definition extractTextFromImagesWithGemini (base64Images : list (option jsstring))
  : M (option jsstring) :=
  let request := ocrRequest base64Images in
  try_catch
    (response_text <- call (CallGenerateContent request)
                           (ai_generateContent caps request) ;;
     ret response_text)
    (fun error =>
       if instanceof_Error error
          && includes (message error) (lit "API key not valid") then
         throw (new_Error msg_invalid_api_key)
       else throw (new_Error msg_ocr_failed)).

(** ** [App.tsx]: the ingestion pipeline *)

Definition mime_pdf : jsstring := lit "application/pdf".
Definition mime_docx : jsstring :=
  lit "application/vnd.openxmlformats-officedocument.wordprocessingml.document".

Definition acceptedTypes : list jsstring := [mime_pdf; mime_docx].

(** The line feed appended after each page. *)
Definition LF : jsstring := [0x0A%N].

(** The threshold of the scan heuristic. *)
Definition scanWordThreshold : nat := 50.

(** The page cap, the render scale and the JPEG quality of the OCR path. *)
Definition ocrPageCap : nat := 5.
Definition ocrScale : Q := 2 # 1.
Definition jpegQuality : Q := 9 # 10.

(** ['str' in item ? item.str : '']. *)
Definition item_str (item : TextItem) : jsstring :=
  match item with
  | TextItemStr str => str
  | TextMarkedContent => []
  end.

(** The heuristic of [parseFile], on the page count and the text read. *)
Definition isScannedHeuristic (pages : nat) (textContent : jsstring) : bool :=
  (0 <? pages) && (List.length (split_ws (trim textContent)) <? scanWordThreshold).

(** [parseFile]: the text of a PDF (the items of each page joined by a space,
    a line feed after each page) with the verdict of the heuristic, or the raw
    text of a DOCX with the verdict [false]. *)
Definition parseFile (file : File) : M (jsstring * bool) :=
  if JsString.eqb (type file) mime_pdf then
    buf <- call CallArrayBuffer (arrayBuffer file) ;;
    pdf <- call (CallGetDocument buf) (pdfjs_getDocument caps buf) ;;
    textContent <-
      for_each (seq 1 (numPages pdf))
        (fun i textContent =>
           page <- call (CallGetPage i) (getPage pdf i) ;;
           text <- call (CallGetTextContent i) (getTextContent page) ;;
           ret (textContent ++ join (lit " ") (map item_str text) ++ LF))
        [] ;;
    let isScanned := isScannedHeuristic (numPages pdf) textContent in
    ret (textContent, isScanned)
  else if JsString.eqb (type file) mime_docx then
    buf <- call CallArrayBuffer (arrayBuffer file) ;;
    value <- call (CallExtractRawText buf) (mammoth_extractRawText caps buf) ;;
    ret (value, false)
  else throw (new_Error "Unsupported file type").

(** [dataUrl.split(',')[1]]. *)
Definition strip_data_url_prefix (dataUrl : jsstring) : option jsstring :=
  nth_error (split_on 0x2C%N dataUrl) 1.

(** The body of the page loop of [performOcrOnPdf]. *)
Definition rasterizePage (pdf : PDFDocument) (i : nat)
  (base64Images : list (option jsstring)) : M (list (option jsstring)) :=
  page <- call (CallGetPage i) (getPage pdf i) ;;
  _ <- call (CallGetViewport i ocrScale) (Returned tt) ;;
  context <- call (CallGetContext i) (Returned (canvas_getContext caps i)) ;;
  if context : bool then
    bitmap <- call (CallRender i ocrScale) (render page ocrScale) ;;
    dataUrl <- call (CallToDataURL i (lit "image/jpeg") jpegQuality)
                    (Returned (canvas_toDataURL caps bitmap (lit "image/jpeg")
                                 jpegQuality)) ;;
    ret (base64Images ++ [strip_data_url_prefix dataUrl])
  else ret base64Images.

Definition msg_no_images : string :=
  "Could not convert PDF pages to images for OCR.".

(** [performOcrOnPdf]: the first pages of the PDF, at most [ocrPageCap], are
    rendered and encoded, and the images are sent to the OCR requester. *)
Definition performOcrOnPdf (file : File) : M (option jsstring) :=
  buf <- call CallArrayBuffer (arrayBuffer file) ;;
  pdf <- call (CallGetDocument buf) (pdfjs_getDocument caps buf) ;;
  let maxPagesForOcr := Nat.min (numPages pdf) ocrPageCap in
  base64Images <- for_each (seq 1 maxPagesForOcr) (rasterizePage pdf) [] ;;
  if Nat.eqb (List.length base64Images) 0 then throw (new_Error msg_no_images)
  else extractTextFromImagesWithGemini base64Images.

(** The messages [handleFileChange] shows. *)
Definition msg_invalid_type : jsstring := lit "Invalid file type. Use PDF or DOCX.".
Definition msg_ocr_no_text : jsstring :=
  lit "AI could not read any text from this document.".
Definition msg_ocr_capability : jsstring :=
  lit "AI-powered text extraction failed. The document might be unreadable or a network issue occurred.".
Definition msg_password : jsstring :=
  lit "This PDF is password-protected. Please upload an unprotected file.".
Definition msg_corrupt_pdf : jsstring :=
  lit "The uploaded PDF file appears to be invalid or corrupted.".
Definition msg_docx_read : jsstring :=
  lit "Could not read the DOCX file. It may be corrupted or in an old format.".
Definition msg_generic_read : jsstring :=
  lit "Failed to read the contents of this file.".
Definition msg_unexpected : jsstring :=
  lit "An unexpected error occurred while processing the file.".

(** The message the [catch] block of [handleFileChange] chooses. *)
Definition parsingErrorMessage (file : File) (err : JsError) : jsstring :=
  if includes (message err) (lit "AI OCR returned no text.") then msg_ocr_no_text
  else if includes (message err) (lit "Failed to extract text") then msg_ocr_capability
  else if JsString.eqb (name err) (lit "PasswordException") then msg_password
  else if JsString.eqb (name err) (lit "InvalidPDFException")
          || JsString.eqb (name err) (lit "MissingPDFException") then msg_corrupt_pdf
  else if instanceof_Error err then
    if includes (type file) (lit "wordprocessingml") then msg_docx_read
    else msg_generic_read
  else msg_unexpected.

(** The [catch] block of [handleFileChange]. *)
Definition handleFileChange_catch (file : File) (err : JsError) : M unit :=
  setUserCvFile None ;;
  setUserCvText [] ;;
  setParsingError (Some (parsingErrorMessage file err)).

(** The [finally] block of [handleFileChange]. *)
Definition handleFileChange_finally : M unit :=
  setIsParsing false ;;
  setIsScanning false.

(** The writes of [handleFileChange] before its [try]. *)
Definition handleFileChange_prologue (file : File) : M unit :=
  setUserCvFile (Some file) ;;
  setUserCvText [] ;;
  setParsingError None ;;
  setIsParsing true ;;
  setIsScanning false.

(** [!ocrText || ocrText.trim().length === 0]. *)
Definition ocrTextIsBlank (ocrText : option jsstring) : bool :=
  match ocrText with
  | None => true
  | Some t => Nat.eqb (List.length t) 0 || Nat.eqb (List.length (trim t)) 0
  end.

(** What [handleFileChange] does with the text the OCR returned. *)
Definition acceptOcrText (ocrText : option jsstring) : M unit :=
  if ocrTextIsBlank ocrText then throw (new_Error "AI OCR returned no text.")
  else setUserCvText (match ocrText with Some t => t | None => [] end).

(** The branch of [handleFileChange] for a scanned PDF, from the switch of
    the loading flags on. *)
Definition scanBranch (file : File) : M unit :=
  ocrText <- performOcrOnPdf file ;;
  acceptOcrText ocrText.

(** The result of the [try] block of [handleFileChange]. *)
Inductive Ingestion :=
| Ingested (text : jsstring)
| Failed (err : JsError).

(** The state after the writes at the start of an attempt. *)
Definition prologue_state (file : File) (s : AppState) : AppState :=
  mkState (Some file) [] (jobDescriptionText s) (optimizedCvData s)
    (isLoading s) (error s) (isCopied s) true false None.

(** The state after the writes at the end of an attempt. *)
Definition settle_state (file : File) (s : AppState) (r : Ingestion) : AppState :=
  match r with
  | Ingested text =>
      mkState (userCvFile s) text (jobDescriptionText s) (optimizedCvData s)
        (isLoading s) (error s) (isCopied s) false false (parsingError s)
  | Failed err =>
      mkState None [] (jobDescriptionText s) (optimizedCvData s)
        (isLoading s) (error s) (isCopied s) false false
        (Some (parsingErrorMessage file err))
  end.

(** The result of the [try] block, from the outcomes of [parseFile] and of
    [performOcrOnPdf]. *)
Definition ingestion (file : File) (parsed : Outcome (jsstring * bool))
  (ocr : Outcome (option jsstring)) : Ingestion :=
  match parsed with
  | Threw err => Failed err
  | Returned (initialText, isScanned) =>
      if isScanned && JsString.eqb (type file) mime_pdf then
        match ocr with
        | Threw err => Failed err
        | Returned ocrText =>
            if ocrTextIsBlank ocrText then
              Failed (new_Error "AI OCR returned no text.")
            else Ingested (match ocrText with Some t => t | None => [] end)
        end
      else Ingested initialText
  end.

(** [handleFileChange], run without interruption.  Its first line,
    [if (!file) return], never fires: both callers pass a file. *)
Definition handleFileChange (file : File) : M unit :=
  let acceptedTypes := acceptedTypes in
  if negb (array_includes acceptedTypes (type file)) then
    setParsingError (Some msg_invalid_type)
  else
    handleFileChange_prologue file ;;
    try_finally
      (try_catch
         (r <- parseFile file ;;
          let '(initialText, isScanned) := r in
          if isScanned && JsString.eqb (type file) mime_pdf then
            setIsParsing false ;;
            setIsScanning true ;;
            scanBranch file
          else setUserCvText initialText)
         (handleFileChange_catch file))
      handleFileChange_finally.

(** [handleFileClear]. *)
Definition handleFileClear : M unit :=
  setUserCvFile None ;;
  setUserCvText [] ;;
  setParsingError None ;;
  setIsParsing false ;;
  setIsScanning false.

(** [isFormValid]. *)
Definition isFormValid (s : AppState) : bool :=
  negb (JsString.eqb (trim (userCvText s)) []) &&
  negb (JsString.eqb (trim (jobDescriptionText s)) []).

Definition msg_unknown_error : jsstring :=
  lit "An unknown error occurred. The AI may have returned an invalid format.".

(** [handleOptimize], run without interruption. *)
Definition handleOptimize : M unit :=
  s <- get_ui ;;
  if negb (isFormValid s) || isParsing s || isScanning s then ret tt
  else
    setIsLoading true ;;
    setError None ;;
    setOptimizedCvData None ;;
    try_finally
      (try_catch
         (result <- optimizeCvWithGemini (userCvText s) (jobDescriptionText s) ;;
          setOptimizedCvData (Some result))
         (fun e => setError (Some (if instanceof_Error e then message e
                                   else msg_unknown_error))))
      (setIsLoading false).

(** The Page Rasterizer in the words of the specification: a page is
    rendered at the scale 2.0 and encoded as JPEG at the quality 0.9, and the
    prefix of the data URL is removed; a page whose canvas has no 2D context
    gives no image.  [bitmap i] is the bitmap page [i] renders to. *)
Definition pageImage (bitmap : Bitmap) : option jsstring :=
  strip_data_url_prefix (canvas_toDataURL caps bitmap (lit "image/jpeg") (9 # 10)).

Definition pageImages (bitmap : nat -> Bitmap) (pages : list nat)
  : list (option jsstring) :=
  flat_map (fun i => if canvas_getContext caps i then [pageImage (bitmap i)]
                     else []) pages.

(** The calls the rasterizer makes for page [i]. *)
Definition pageCalls (i : nat) : list Call :=
  [CallGetPage i; CallGetViewport i (2 # 1); CallGetContext i] ++
  (if canvas_getContext caps i
   then [CallRender i (2 # 1); CallToDataURL i (lit "image/jpeg") (9 # 10)]
   else []).

(** ** Attempts in flight

    [handleFileChange] is an [async] function: it is suspended at
    [await parseFile(file)] and, for a scanned PDF, at
    [await performOcrOnPdf(file)], and other handlers run in between.
    [parseFile] and [performOcrOnPdf] write no state of the component, so
    the calls each of them makes are taken together, at the moment the
    awaited promise settles. *)

Inductive Suspended :=
| AwaitingParseFile (file : File)
| AwaitingOcr (file : File).

Definition suspended_file (t : Suspended) : File :=
  match t with
  | AwaitingParseFile file => file
  | AwaitingOcr file => file
  end.

(** The [try] statement of [handleFileChange] from some point of its block on. *)
Definition handleFileChange_settle (file : File) (rest : M unit) : M unit :=
  try_finally (try_catch rest (handleFileChange_catch file))
    handleFileChange_finally.

(** [handleFileChange] up to its first [await]. *)
Definition handleFileChange_start (file : File) : M (option Suspended) :=
  if negb (array_includes acceptedTypes (type file)) then
    setParsingError (Some msg_invalid_type) ;;
    ret None
  else
    handleFileChange_prologue file ;;
    ret (Some (AwaitingParseFile file)).

(** [handleFileChange] from an [await] to the next one, or to its end. *)
Definition handleFileChange_resume (t : Suspended) : M (option Suspended) :=
  match t with
  | AwaitingParseFile file =>
      fun w =>
        match parseFile file w with
        | (Returned (initialText, isScanned), w1) =>
            if isScanned && JsString.eqb (type file) mime_pdf then
              (setIsParsing false ;;
               setIsScanning true ;;
               ret (Some (AwaitingOcr file))) w1
            else
              (handleFileChange_settle file (setUserCvText initialText) ;;
               ret None) w1
        | (Threw err, w1) =>
            (handleFileChange_settle file (throw err) ;; ret None) w1
        end
  | AwaitingOcr file =>
      handleFileChange_settle file (scanBranch file) ;;
      ret None
  end.

(** An attempt in flight as [handleFileChange] leaves it: the file has an
    accepted type, and the attempt waits for the OCR only after [parseFile]
    has classified a PDF as scanned. *)
Definition reachable_attempt (t : Suspended) : Prop :=
  array_includes acceptedTypes (type (suspended_file t)) = true /\
  match t with
  | AwaitingParseFile _ => True
  | AwaitingOcr file =>
      type file = mime_pdf /\
      exists text, fst (parseFile file world0) = Returned (text, true)
  end.

(** The component and the attempts of [handleFileChange] in flight, oldest
    first. *)
Record Config := mkConfig' {
  world : World;
  inflight : list Suspended
}.

(** What happens to the component: a file is selected or dropped, the file
    is cleared, or the promise the [k]-th attempt in flight awaits settles. *)
Inductive Event :=
| SelectFile (file : File)
| ClearFile
| Resume (k : nat).

Fixpoint replace_nth {A} (k : nat) (x : A) (l : list A) : list A :=
  match l, k with
  | [], _ => []
  | _ :: r, 0 => x :: r
  | y :: r, S k' => y :: replace_nth k' x r
  end.

Fixpoint remove_nth {A} (k : nat) (l : list A) : list A :=
  match l, k with
  | [], _ => []
  | _ :: r, 0 => r
  | y :: r, S k' => y :: remove_nth k' r
  end.

Definition dispatch (e : Event) (c : Config) : Config :=
  match e with
  | SelectFile file =>
      match handleFileChange_start file (world c) with
      | (Returned (Some t), w) => mkConfig' w (inflight c ++ [t])
      | (_, w) => mkConfig' w (inflight c)
      end
  | ClearFile => mkConfig' (snd (handleFileClear (world c))) (inflight c)
  | Resume k =>
      match nth_error (inflight c) k with
      | None => c
      | Some t =>
          match handleFileChange_resume t (world c) with
          | (Returned (Some t'), w) => mkConfig' w (replace_nth k t' (inflight c))
          | (_, w) => mkConfig' w (remove_nth k (inflight c))
          end
      end
  end.

Definition run (events : list Event) (c : Config) : Config :=
  fold_left (fun c e => dispatch e c) events c.

(** The attempt an event brings to its end, if any. *)
Definition settled_by (e : Event) (c : Config) : option File :=
  match e with
  | Resume k =>
      match nth_error (inflight c) k with
      | None => None
      | Some t =>
          match handleFileChange_resume t (world c) with
          | (Returned (Some _), _) => None
          | (_, _) => Some (suspended_file t)
          end
      end
  | _ => None
  end.

(** The attempts a run of events brings to their end, in that order. *)
Fixpoint settled (events : list Event) (c : Config) : list File :=
  match events with
  | [] => []
  | e :: rest =>
      match settled_by e c with
      | Some f => f :: settled rest (dispatch e c)
      | None => settled rest (dispatch e c)
      end
  end.

(** What an attempt on [file], run alone, leaves in the component. *)
Definition alone (file : File) : AppState :=
  ui (snd (handleFileChange file world0)).

End Program.

(** ** Concrete capabilities and files, for the examples

    A PDF buffer has one page per byte; the page of byte [0] has no text
    layer and the page of another byte has that byte as its one word.  The
    DOCX reader gives the bytes of the buffer as the text. *)

Definition demo_page (b : N) : PDFPage :=
  mkPage (Returned (if (b =? 0)%N then [] else [TextItemStr [b]]))
         (fun _ => Returned [b]).

Definition demo_pdf (buf : ArrayBuffer) : PDFDocument :=
  mkPdf (List.length buf)
    (fun i =>
       match nth_error buf (i - 1) with
       | Some b => Returned (demo_page b)
       | None => Threw (new_Error "Invalid page request.")
       end).

Definition demo_getDocument (buf : ArrayBuffer) : Outcome PDFDocument :=
  match buf with
  | [] => Threw (mkError true false (lit "InvalidPDFException")
                   (lit "The PDF file is empty, i.e. its size is zero bytes."))
  | _ => Returned (demo_pdf buf)
  end.

Definition demo_toDataURL (bitmap : Bitmap) (mime : jsstring) (quality : Q)
  : jsstring :=
  lit "data:" ++ mime ++ lit ";base64," ++ bitmap.

(** A generation service that answers a request with a schema by [payload]
    and a request without one by [ocrText]. *)
Definition demo_generate (ocrText : Outcome (option jsstring))
  (payload : jsstring) (request : GenerateContentParameters)
  : Outcome (option jsstring) :=
  match config request with
  | Some _ => Returned (Some payload)
  | None => ocrText
  end.

Definition demo_caps_with (context : nat -> bool)
  (ocrText : Outcome (option jsstring)) (payload : jsstring) : Capabilities :=
  mkCaps demo_getDocument (fun buf => Returned buf) context demo_toDataURL
    (demo_generate ocrText payload).

Definition demo_caps : Capabilities :=
  demo_caps_with (fun _ => true) (Returned (Some (lit "Jane Doe"))) (lit "{}").

Definition docx_alpha : File := mkFile mime_docx (Returned (lit "alpha")).
Definition docx_beta : File := mkFile mime_docx (Returned (lit "beta")).
Definition scanned_pdf : File := mkFile mime_pdf (Returned [0; 0]%N).
Definition text_pdf : File := mkFile mime_pdf (Returned (repeat 0x41%N 50)).
Definition plain_text_file : File := mkFile (lit "text/plain") (Returned (lit "hello")).

(** ** [App.tsx]: what the component shows *)

(** The four faces of the [FileInput] component, by its nested conditional:
    the spinner with its text, the error with its message, the selected file,
    or the prompt to upload. *)
Inductive FileInputView :=
| ViewLoading (loadingText : jsstring)
| ViewError (parsingError : jsstring)
| ViewFile (file : File)
| ViewPrompt.

(** [isLoading ? ... : parsingError ? ... : file ? ... : ...]; the empty
    string is falsy. *)
Definition FileInput_view (file : option File) (isLoading : bool)
  (loadingText : jsstring) (parsingError : option jsstring) : FileInputView :=
  if isLoading then ViewLoading loadingText
  else
    match parsingError with
    | Some (c :: m) => ViewError (c :: m)
    | _ =>
        match file with
        | Some f => ViewFile f
        | None => ViewPrompt
        end
    end.

(** The [FileInput] as [App] renders it. *)
Definition App_fileInput (s : AppState) : FileInputView :=
  FileInput_view (userCvFile s) (isParsing s || isScanning s)
    (if isScanning s then lit "Scanning with AI (OCR)..."
     else lit "Parsing file...")
    (parsingError s).

(** [s.replace(/\s+/g, by)]: every maximal run of white space becomes [by].
    [in_run] tells that the character before [s] is white space. *)
Fixpoint replace_ws_runs (by_ : jsstring) (in_run : bool) (s : jsstring)
  : jsstring :=
  match s with
  | [] => []
  | c :: r =>
      if isWhiteSpace c then
        if in_run then replace_ws_runs by_ true r
        else by_ ++ replace_ws_runs by_ true r
      else c :: replace_ws_runs by_ false r
  end.

(** The [filename] option of [handleSaveAsPdf]:
    [`${fullName.replace(/\s+/g, '_')}_CV.pdf`]. *)
Definition pdfFileName (fullName : jsstring) : jsstring :=
  replace_ws_runs (lit "_") false fullName ++ lit "_CV.pdf".

(** The text [parseFile] adds for a page: its items joined by a space, and a
    line feed. *)
Definition pageLine (items : list TextItem) : jsstring :=
  join (lit " ") (map item_str items) ++ LF.


(** A text has a character that is not white space. *)
Definition hasVisibleChar (s : jsstring) : bool :=
  existsb (fun c => negb (isWhiteSpace c)) s.

(** One attempt, on [file], and no other: what is in flight and what the
    component holds at each of its stages. *)
Definition single_attempt (caps : Capabilities) (file : File) (c : Config) : Prop :=
  let s := ui (world c) in
  match inflight c with
  | [] =>
      userCvFile s = userCvFile (alone caps file) /\
      userCvText s = userCvText (alone caps file) /\
      parsingError s = parsingError (alone caps file) /\
      isParsing s = false /\ isScanning s = false
  | [t] =>
      suspended_file t = file /\ reachable_attempt caps t /\
      userCvFile s = Some file /\ userCvText s = [] /\ parsingError s = None /\
      match t with
      | AwaitingParseFile _ => isParsing s = true /\ isScanning s = false
      | AwaitingOcr _ => isParsing s = false /\ isScanning s = true
      end
  | _ => False
  end.

(** A decoder that refuses every document for want of a password. *)
Definition locked_caps : Capabilities :=
  mkCaps (fun _ => Threw (mkError true false (lit "PasswordException")
                            (lit "No password given")))
    (fun buf => Returned buf) (fun _ => true) demo_toDataURL
    (demo_generate (Returned (Some (lit "Jane Doe"))) (lit "{}")).

(** A DOCX reader that fails. *)
Definition broken_docx_caps : Capabilities :=
  mkCaps demo_getDocument
    (fun _ => Threw (new_Error "Could not find the body element"))
    (fun _ => true) demo_toDataURL
    (demo_generate (Returned (Some (lit "Jane Doe"))) (lit "{}")).

(** One attempt, on [file], in flight or ended after [handleFileClear] ran
    in its course: no file is shown. *)
Definition cleared_attempt (caps : Capabilities) (file : File) (c : Config) : Prop :=
  let s := ui (world c) in
  match inflight c with
  | [] =>
      userCvFile s = None /\
      userCvText s = userCvText (alone caps file) /\
      parsingError s = parsingError (alone caps file)
  | [t] =>
      suspended_file t = file /\ reachable_attempt caps t /\
      userCvFile s = None /\ userCvText s = [] /\ parsingError s = None
  | _ => False
  end.

(** A PDF of three pages whose second page cannot be fetched, and a decoder
    that gives it for every buffer. *)
Definition torn_pdf : PDFDocument :=
  mkPdf 3 (fun i => if Nat.eqb i 2 then Threw (new_Error "Page is damaged.")
                    else Returned (demo_page 0x41%N)).

Definition torn_caps : Capabilities :=
  mkCaps (fun _ => Returned torn_pdf) (fun buf => Returned buf) (fun _ => true)
    demo_toDataURL (demo_generate (Returned (Some (lit "Jane Doe"))) (lit "{}")).

(** A PDF without any page, and a decoder that gives it for every buffer. *)
Definition pageless_pdf : PDFDocument :=
  mkPdf 0 (fun _ => Threw (new_Error "Invalid page request.")).

Definition pageless_caps : Capabilities :=
  mkCaps (fun _ => Returned pageless_pdf) (fun buf => Returned buf)
    (fun _ => true) demo_toDataURL
    (demo_generate (Returned (Some (lit "Jane Doe"))) (lit "{}")).

(** A state in which the form is valid. *)
Definition filled_world : World :=
  mkWorld (mkState None (lit "cv") (lit "job") None false None false false
             false None) [].

(** The [onClick] of the drop zone of [FileInput]: the file picker is opened
    when [!(file || isLoading || parsingError)]. *)
Definition FileInput_clickOpensPicker (file : option File) (isLoading : bool)
  (parsingError : option jsstring) : bool :=
  negb (match file with Some _ => true | None => false end
        || isLoading
        || match parsingError with Some (_ :: _) => true | _ => false end).

(** [handleDrop] of [FileInput], with [handleFileChange] as its
    [onFileChange]: the first of the files dropped, if there is one, is
    selected.  (The [isDragging] flag of the drop zone is left out.) *)
Definition FileInput_handleDrop (caps : Capabilities) (files : list File)
  (c : Config) : Config :=
  match files with
  | droppedFile :: _ => dispatch caps (SelectFile droppedFile) c
  | [] => c
  end.

(** * Properties *)

(** ** Strings *)

Lemma eqb_refl (s : jsstring) : JsString.eqb s s = true.
Proof.
  induction s as [|c s IH]; simpl; [reflexivity|].
  now rewrite N.eqb_refl, IH.
Qed.

Lemma eqb_eq (a b : jsstring) : JsString.eqb a b = true <-> a = b.
Proof.
  split.
  - revert b; induction a as [|x a IH]; intros [|y b] H; simpl in H;
      try discriminate; [reflexivity|].
    apply andb_true_iff in H as [Hx Hr].
    apply N.eqb_eq in Hx. apply IH in Hr. now subst.
  - intros ->. apply eqb_refl.
Qed.

(** The number of pieces [split(/\s+/)] gives, from any state of the scan. *)
Lemma split_ws_from_length (s cur : jsstring) (in_sep : bool) :
  List.length (split_ws_from cur in_sep s) =
  count_words (negb in_sep) s + (if in_sep then 0 else 1)
  + (if ends_in_whitespace in_sep s then 1 else 0).
Proof.
  revert cur in_sep.
  induction s as [|c r IH]; intros cur in_sep; simpl.
  - destruct in_sep; reflexivity.
  - destruct (isWhiteSpace c) eqn:Hc.
    + destruct in_sep; simpl; rewrite IH; simpl; lia.
    + rewrite IH. destruct in_sep; simpl; lia.
Qed.

Lemma count_words_trimEnd (s : jsstring) (b : bool) :
  count_words b (trimEnd s) = count_words b s.
Proof.
  revert b. induction s as [|c r IH]; intros b; simpl; [reflexivity|].
  destruct (trimEnd r) as [|c' r'] eqn:Hr.
  - destruct (isWhiteSpace c) eqn:Hc; simpl.
    + now rewrite <- IH.
    + rewrite Hc, <- IH. reflexivity.
  - simpl. destruct (isWhiteSpace c) eqn:Hc.
    + rewrite <- IH. reflexivity.
    + rewrite <- IH. reflexivity.
Qed.

Lemma trimEnd_ends (s : jsstring) :
  ends_in_whitespace false (trimEnd s) = false.
Proof.
  induction s as [|c r IH]; simpl; [reflexivity|].
  destruct (trimEnd r) as [|c' r'] eqn:Hr.
  - destruct (isWhiteSpace c) eqn:Hc; simpl; [reflexivity|exact Hc].
  - simpl in *. exact IH.
Qed.

Lemma count_words_trimStart (s : jsstring) :
  count_words false (trimStart s) = count_words false s.
Proof.
  induction s as [|c r IH]; simpl; [reflexivity|].
  destruct (isWhiteSpace c) eqn:Hc; simpl; [exact IH|].
  now rewrite Hc.
Qed.

Lemma trimStart_head (s : jsstring) :
  trimStart s = [] \/
  exists c r, trimStart s = c :: r /\ isWhiteSpace c = false.
Proof.
  induction s as [|c r IH]; simpl; [now left|].
  destruct (isWhiteSpace c) eqn:Hc; [exact IH|].
  right. now exists c, r.
Qed.

Lemma word_count_trim (s : jsstring) : word_count (trim s) = word_count s.
Proof.
  unfold word_count, trim.
  now rewrite count_words_trimEnd, count_words_trimStart.
Qed.

(** [s.trim().split(/\s+/).length] is the word count of [s], except that the
    text without any word gives the one piece [""]. *)
Lemma split_trim_length (s : jsstring) :
  List.length (split_ws (trim s)) = Nat.max 1 (word_count s).
Proof.
  rewrite <- word_count_trim.
  unfold split_ws. rewrite split_ws_from_length. simpl negb.
  pose proof (trimEnd_ends (trimStart s)) as He.
  fold (trim s) in He. rewrite He.
  unfold word_count, trim.
  destruct (trimStart_head s) as [H | (c & r & H & Hc)]; rewrite H.
  - reflexivity.
  - simpl. destruct (trimEnd r); simpl; rewrite Hc; simpl; rewrite ?Hc; lia.
Qed.

(** ** Running computations *)

Ltac run_m :=
  cbv beta iota zeta delta
    [bind ret call throw try_catch try_finally modify_ui get_ui
     setUserCvFile setUserCvText setOptimizedCvData setIsLoading setError
     setIsParsing setIsScanning setParsingError
     handleFileChange_prologue handleFileChange_catch handleFileChange_finally
     handleFileChange_settle handleFileClear
     ui calls userCvFile userCvText jobDescriptionText optimizedCvData
     isLoading error isCopied isParsing isScanning parsingError fst snd
     negb andb orb].

Lemma mime_docx_not_pdf : JsString.eqb mime_docx mime_pdf = false.
Proof. vm_compute. reflexivity. Qed.

Lemma accepted_pdf : array_includes acceptedTypes mime_pdf = true.
Proof. vm_compute. reflexivity. Qed.

Lemma accepted_docx : array_includes acceptedTypes mime_docx = true.
Proof. vm_compute. reflexivity. Qed.

(** An accepted type is one of the two declared types. *)
Lemma array_includes_accepted (t : jsstring) :
  array_includes acceptedTypes t = true <-> t = mime_pdf \/ t = mime_docx.
Proof.
  unfold array_includes, acceptedTypes. simpl existsb.
  rewrite orb_false_r, orb_true_iff, !eqb_eq. tauto.
Qed.

Lemma new_calls_app (w w' : World) (l : list Call) :
  calls w' = calls w ++ l -> new_calls w w' = l.
Proof.
  intros H. unfold new_calls. rewrite H.
  rewrite skipn_app, skipn_all, Nat.sub_diag. reflexivity.
Qed.

(** ** The scan heuristic *)

Lemma isScannedHeuristic_spec (pages : nat) (text : jsstring) :
  isScannedHeuristic pages text = true <->
  0 < pages /\ word_count text < 50.
Proof.
  unfold isScannedHeuristic, scanWordThreshold.
  rewrite andb_true_iff, !Nat.ltb_lt, split_trim_length. lia.
Qed.

(** What [parseFile] returns for a PDF is the text read and the verdict of
    the heuristic on the page count of the decoded document. *)
Lemma parseFile_pdf_returned (caps : Capabilities) (file : File) (w w' : World)
  (text : jsstring) (isScanned : bool) :
  type file = mime_pdf ->
  parseFile caps file w = (Returned (text, isScanned), w') ->
  exists buf pdf,
    arrayBuffer file = Returned buf /\
    pdfjs_getDocument caps buf = Returned pdf /\
    isScanned = isScannedHeuristic (numPages pdf) text.
Proof.
  intros Ht. unfold parseFile. rewrite Ht, eqb_refl. run_m.
  destruct (arrayBuffer file) as [buf|e] eqn:Hb; [|discriminate].
  destruct (pdfjs_getDocument caps buf) as [pdf|e] eqn:Hp; [|discriminate].
  match goal with |- context [for_each ?l ?f ?a ?w0] =>
    destruct (for_each l f a w0) as [[t|e] w1] end; [|discriminate].
  intros H. injection H as <- <- <-.
  now exists buf, pdf.
Qed.

(** [parseFile] on a DOCX: the two calls it makes and what it returns. *)
Lemma parseFile_docx (caps : Capabilities) (file : File) (w : World) :
  type file = mime_docx ->
  parseFile caps file w =
  match arrayBuffer file with
  | Threw e => (Threw e, mkWorld (ui w) (calls w ++ [CallArrayBuffer]))
  | Returned buf =>
      (match mammoth_extractRawText caps buf with
       | Returned value => Returned (value, false)
       | Threw e => Threw e
       end,
       mkWorld (ui w) ((calls w ++ [CallArrayBuffer]) ++ [CallExtractRawText buf]))
  end.
Proof.
  intros Ht. unfold parseFile. rewrite Ht, mime_docx_not_pdf, eqb_refl. run_m.
  destruct (arrayBuffer file) as [buf|e]; [|reflexivity].
  destruct (mammoth_extractRawText caps buf); reflexivity.
Qed.

(** C1. The scan heuristic classifies as scanned exactly when the page count
    is positive and the text has fewer than 50 words separated by white
    space; this is the verdict [parseFile] returns for a PDF, on the page
    count of the decoded document and the text it returns.  For a DOCX the
    verdict is [false], and [handleFileChange] makes no call of the OCR path
    (no rendering, no encoding, no generation call). *)
Theorem scan_heuristic_and_docx_never_ocr :
  (forall pages text,
     isScannedHeuristic pages text = true <->
     0 < pages /\ word_count text < 50) /\
  (forall caps file w text isScanned w',
     type file = mime_pdf ->
     parseFile caps file w = (Returned (text, isScanned), w') ->
     exists buf pdf,
       arrayBuffer file = Returned buf /\
       pdfjs_getDocument caps buf = Returned pdf /\
       (isScanned = true <-> 0 < numPages pdf /\ word_count text < 50)) /\
  (forall caps file w,
     type file = mime_docx ->
     (forall text isScanned w',
        parseFile caps file w = (Returned (text, isScanned), w') ->
        isScanned = false) /\
     Forall (fun c => is_ocr_call c = false)
       (new_calls w (snd (handleFileChange caps file w)))).
Proof.
  split; [exact isScannedHeuristic_spec|]. split.
  - intros caps file w text isScanned w' Ht H.
    destruct (parseFile_pdf_returned caps file w _ _ _ Ht H) as (buf & pdf & Hb & Hp & ->).
    exists buf, pdf. split; [assumption|]. split; [assumption|].
    apply isScannedHeuristic_spec.
  - intros caps file w Ht. split.
    + intros text isScanned w'. rewrite (parseFile_docx caps file w Ht).
      destruct (arrayBuffer file) as [buf|e]; [|discriminate].
      destruct (mammoth_extractRawText caps buf); [|discriminate].
      intros H. now injection H as <- <- <-.
    + destruct w as [s log].
      unfold handleFileChange. rewrite Ht, accepted_docx.
      rewrite mime_docx_not_pdf. run_m.
      rewrite (parseFile_docx caps file _ Ht). run_m.
      destruct (arrayBuffer file) as [buf|e].
      * destruct (mammoth_extractRawText caps buf); run_m;
          (erewrite new_calls_app;
           [|simpl; rewrite <- app_assoc; reflexivity]);
          repeat constructor.
      * run_m. erewrite new_calls_app; [|simpl; reflexivity].
        repeat constructor.
Qed.

(** ** Unsupported types *)

Lemma not_accepted (t : jsstring) :
  t <> mime_pdf -> t <> mime_docx -> array_includes acceptedTypes t = false.
Proof.
  intros Hp Hd. destruct (array_includes acceptedTypes t) eqn:H; [|reflexivity].
  apply array_includes_accepted in H. tauto.
Qed.

(** [handleFileChange] on a file of another type: one write, no call. *)
Lemma handleFileChange_unsupported (caps : Capabilities) (file : File) (w : World) :
  array_includes acceptedTypes (type file) = false ->
  handleFileChange caps file w = setParsingError (Some msg_invalid_type) w.
Proof.
  intros H. unfold handleFileChange. rewrite H. reflexivity.
Qed.

(** C9. A file whose declared type is neither PDF nor DOCX is rejected at
    once with the message of the unsupported format: the handler returns
    after that one write, no capability is called (no extraction, no
    classification, no OCR), no attempt is left in flight, and the outcome is
    the same for any file of that declared type, whatever its content and
    whatever the capabilities. *)
Theorem unsupported_type_rejected_immediately
  (caps : Capabilities) (file : File) (w : World) :
  type file <> mime_pdf -> type file <> mime_docx ->
  fst (handleFileChange caps file w) = Returned tt /\
  parsingError (ui (snd (handleFileChange caps file w))) = Some msg_invalid_type /\
  calls (snd (handleFileChange caps file w)) = calls w /\
  handleFileChange_start file w
    = (Returned None, snd (handleFileChange caps file w)) /\
  (forall c, inflight (dispatch caps (SelectFile file) c) = inflight c) /\
  (forall caps' file',
     type file' = type file ->
     handleFileChange caps' file' w = handleFileChange caps file w).
Proof.
  intros Hp Hd. pose proof (not_accepted _ Hp Hd) as Hn.
  rewrite (handleFileChange_unsupported caps file w Hn).
  destruct w as [s log]. run_m. repeat split.
  - unfold handleFileChange_start. rewrite Hn. reflexivity.
  - intros c. unfold dispatch, handleFileChange_start. rewrite Hn.
    destruct c as [[s' log'] fl]. reflexivity.
  - intros caps' file' Ht. apply handleFileChange_unsupported. now rewrite Ht.
Qed.

(** C10. Selecting a file of an unsupported type writes the parsing error and
    nothing else: the selected file, the extracted text, the two loading
    flags and every other state variable keep their values, in every state
    and so in one where a file was ingested before.  [handleFileClear]
    instead drops the file, the text and the error and lowers both flags. *)
Theorem unsupported_type_only_sets_error
  (caps : Capabilities) (file : File) (w : World) :
  type file <> mime_pdf -> type file <> mime_docx ->
  let s := ui w in
  let s' := ui (snd (handleFileChange caps file w)) in
  let cleared := ui (snd (handleFileClear w)) in
  (parsingError s' = Some msg_invalid_type /\
   userCvFile s' = userCvFile s /\
   userCvText s' = userCvText s /\
   isParsing s' = isParsing s /\
   isScanning s' = isScanning s /\
   jobDescriptionText s' = jobDescriptionText s /\
   optimizedCvData s' = optimizedCvData s /\
   isLoading s' = isLoading s /\
   error s' = error s /\
   isCopied s' = isCopied s) /\
  (userCvFile cleared = None /\
   userCvText cleared = [] /\
   parsingError cleared = None /\
   isParsing cleared = false /\
   isScanning cleared = false).
Proof.
  intros Hp Hd. pose proof (not_accepted _ Hp Hd) as Hn.
  rewrite (handleFileChange_unsupported caps file w Hn).
  destruct w as [s log]. run_m. repeat split.
Qed.

(** ** The two requesters *)

(** What [extractTextFromImagesWithGemini] does, in one equation: one call,
    and the text of the response or one of the two errors. *)
Lemma extractTextFromImagesWithGemini_run
  (caps : Capabilities) (images : list (option jsstring)) (w : World) :
  extractTextFromImagesWithGemini caps images w =
  (match ai_generateContent caps (ocrRequest images) with
   | Returned text => Returned text
   | Threw e =>
       Threw (if instanceof_Error e
                 && includes (message e) (lit "API key not valid")
              then new_Error msg_invalid_api_key
              else new_Error msg_ocr_failed)
   end,
   mkWorld (ui w) (calls w ++ [CallGenerateContent (ocrRequest images)])).
Proof.
  unfold extractTextFromImagesWithGemini.
  cbv beta iota zeta delta [bind ret call throw try_catch].
  destruct (ai_generateContent caps (ocrRequest images)) as [t|e]; [reflexivity|].
  destruct (instanceof_Error e && includes (message e) (lit "API key not valid"));
    reflexivity.
Qed.

(** C6. The OCR requester makes exactly one generation call, whatever the
    number of images; its parts are the fixed instruction and then one inline
    JPEG part per image, in the order given; and when the call succeeds the
    text of the response is returned as it is.  It writes no state. *)
Theorem ocr_requester_single_call
  (caps : Capabilities) (images : list (option jsstring)) (w : World) :
  let r := extractTextFromImagesWithGemini caps images w in
  new_calls w (snd r) = [CallGenerateContent (ocrRequest images)] /\
  List.length (filter is_generation_call (new_calls w (snd r))) = 1 /\
  contents (ocrRequest images) =
    PartsContents
      (TextPart ocr_prompt ::
       map (fun img => InlineDataPart img (lit "image/jpeg")) images) /\
  match ai_generateContent caps (ocrRequest images) with
  | Returned text => fst r = Returned text
  | Threw _ => exists e, fst r = Threw e
  end /\
  ui (snd r) = ui w.
Proof.
  cbv zeta. rewrite extractTextFromImagesWithGemini_run. simpl fst. simpl snd.
  rewrite (@new_calls_app w _ [CallGenerateContent (ocrRequest images)]);
    [|reflexivity].
  repeat split.
  destruct (ai_generateContent caps (ocrRequest images)); [reflexivity|].
  eexists. reflexivity.
Qed.

(** C7, a counterexample.  The empty sequence of images is not rejected by
    the requester: with the concrete service the call is made, with the
    instruction as its only part, and the text of the response is returned. *)
Lemma empty_images_not_rejected :
  fst (extractTextFromImagesWithGemini demo_caps [] world0)
    = Returned (Some (lit "Jane Doe")) /\
  new_calls world0 (snd (extractTextFromImagesWithGemini demo_caps [] world0))
    = [CallGenerateContent (ocrRequest [])] /\
  ~ (exists e,
       fst (extractTextFromImagesWithGemini demo_caps [] world0) = Threw e).
Proof.
  split; [vm_compute; reflexivity|]. split; [vm_compute; reflexivity|].
  intros [e He]. vm_compute in He. discriminate.
Qed.

(** The value [optimizeCvWithGemini] returns when the response parses. *)
Lemma optimizeCvWithGemini_parsed
  (caps : Capabilities) (cv jd text : jsstring) (v : json) (w : World) :
  ai_generateContent caps (optimizeRequest cv jd) = Returned (Some text) ->
  Json.parse (trim text) = Returned v ->
  fst (optimizeCvWithGemini caps cv jd w) = Returned v.
Proof.
  intros Hg Hp. unfold optimizeCvWithGemini.
  cbv beta iota zeta delta [bind ret call throw try_catch].
  rewrite Hg, Hp. reflexivity.
Qed.

(** A response that is not JSON is reported as such. *)
Lemma optimizeCvWithGemini_syntax_error
  (caps : Capabilities) (cv jd text : jsstring) (e : JsError) (w : World) :
  ai_generateContent caps (optimizeRequest cv jd) = Returned (Some text) ->
  Json.parse (trim text) = Threw e ->
  fst (optimizeCvWithGemini caps cv jd w) = Threw (new_Error msg_invalid_json).
Proof.
  intros Hg Hp. unfold optimizeCvWithGemini.
  cbv beta iota zeta delta [bind ret call throw try_catch].
  rewrite Hg, Hp.
  assert (He : instanceof_SyntaxError e = true).
  { unfold Json.parse in Hp.
    destruct (Json.parse_value _ _) as [[v r]|];
      [destruct (Json.skip_ws r)|]; try discriminate;
      injection Hp as <-; reflexivity. }
  rewrite He. reflexivity.
Qed.

(** C2 (what the code does). For the response [{}], which is well-formed
    JSON and lacks every required field of the schema, the requester returns
    the parsed object as a [CvData], and [handleOptimize] stores it as the
    optimized CV, with no error. *)
Theorem optimizeCv_returns_nonconforming_payload :
  let w := mkWorld (mkState None (lit "cv") (lit "job") None false None
                      false false false None) [] in
  ai_generateContent demo_caps (optimizeRequest (lit "cv") (lit "job"))
    = Returned (Some (lit "{}")) /\
  Json.parse (lit "{}") = Returned (JObject []) /\
  is_CvData (JObject []) = false /\
  fst (optimizeCvWithGemini demo_caps (lit "cv") (lit "job") w)
    = Returned (JObject []) /\
  optimizedCvData (ui (snd (handleOptimize demo_caps w))) = Some (JObject []) /\
  error (ui (snd (handleOptimize demo_caps w))) = None.
Proof.
  cbv zeta. repeat split; vm_compute; reflexivity.
Qed.

(** ** Computations that leave the component alone *)

Section Emits.

Context {A B : Type} (P : Call -> Prop).

Lemma emits_ret (a : A) : emits P (ret a).
Proof.
  exists (Returned a), []. split; [constructor|].
  intros [s log]. unfold ret. simpl. now rewrite app_nil_r.
Qed.

Lemma emits_throw (e : JsError) : emits P (@throw A e).
Proof.
  exists (Threw e), []. split; [constructor|].
  intros [s log]. unfold throw. simpl. now rewrite app_nil_r.
Qed.

Lemma emits_pure (o : Outcome A) : emits P (fun w => (o, w)).
Proof.
  exists o, []. split; [constructor|].
  intros [s log]. simpl. now rewrite app_nil_r.
Qed.

Lemma emits_call (c : Call) (o : Outcome A) : P c -> emits P (call c o).
Proof.
  intros Hc. exists o, [c]. split; [now repeat constructor|].
  intros w. reflexivity.
Qed.

Lemma emits_bind (m : M A) (k : A -> M B) :
  emits P m -> (forall a, emits P (k a)) -> emits P (bind m k).
Proof.
  intros (o & l & Hl & Hm) Hk. destruct o as [a|e].
  - destruct (Hk a) as (o' & l' & Hl' & Hka).
    exists o', (l ++ l'). split; [now apply Forall_app|].
    intros w. unfold bind. rewrite Hm, Hka. simpl. now rewrite app_assoc.
  - exists (Threw e), l. split; [assumption|].
    intros w. unfold bind. now rewrite Hm.
Qed.

Lemma emits_try_catch (m : M A) (h : JsError -> M A) :
  emits P m -> (forall e, emits P (h e)) -> emits P (try_catch m h).
Proof.
  intros (o & l & Hl & Hm) Hh. destruct o as [a|e].
  - exists (Returned a), l. split; [assumption|].
    intros w. unfold try_catch. now rewrite Hm.
  - destruct (Hh e) as (o' & l' & Hl' & Hhe).
    exists o', (l ++ l'). split; [now apply Forall_app|].
    intros w. unfold try_catch. rewrite Hm, Hhe. simpl. now rewrite app_assoc.
Qed.

Lemma emits_weaken (Q : Call -> Prop) (m : M A) :
  (forall c, P c -> Q c) -> emits P m -> emits Q m.
Proof.
  intros HPQ (o & l & Hl & Hm). exists o, l. split; [|assumption].
  eapply Forall_impl; eassumption.
Qed.

(** The outcome does not depend on the world. *)
Lemma emits_fst (m : M A) (w w' : World) :
  emits P m -> fst (m w) = fst (m w').
Proof. intros (o & l & _ & Hm). now rewrite !Hm. Qed.

Lemma emits_ui (m : M A) (w : World) : emits P m -> ui (snd (m w)) = ui w.
Proof. intros (o & l & _ & Hm). now rewrite Hm. Qed.

Lemma emits_new_calls (m : M A) (w : World) :
  emits P m -> Forall P (new_calls w (snd (m w))).
Proof.
  intros (o & l & Hl & Hm). rewrite Hm. simpl.
  now rewrite (@new_calls_app w _ l).
Qed.

End Emits.

Lemma emits_for_each {A} (P : Call -> Prop) (body : nat -> A -> M A)
  (idx : list nat) (acc : A) :
  (forall i a, emits P (body i a)) -> emits P (for_each idx body acc).
Proof.
  intros Hb. revert acc. induction idx as [|i idx IH]; intros acc; simpl.
  - apply emits_ret.
  - apply emits_bind; [apply Hb|exact IH].
Qed.

Lemma parseFile_emits (caps : Capabilities) (file : File) :
  emits (fun c => is_ocr_call c = false) (parseFile caps file).
Proof.
  unfold parseFile.
  destruct (JsString.eqb (type file) mime_pdf).
  - apply emits_bind; [now apply emits_call|]. intros buf.
    apply emits_bind; [now apply emits_call|]. intros pdf.
    apply emits_bind; [|intros t; apply emits_ret].
    apply emits_for_each. intros i a.
    apply emits_bind; [now apply emits_call|]. intros page.
    apply emits_bind; [now apply emits_call|]. intros text.
    apply emits_ret.
  - destruct (JsString.eqb (type file) mime_docx).
    + apply emits_bind; [now apply emits_call|]. intros buf.
      apply emits_bind; [now apply emits_call|]. intros v.
      apply emits_ret.
    + apply emits_throw.
Qed.

Lemma rasterizePage_emits (caps : Capabilities) (pdf : PDFDocument) (i : nat)
  (acc : list (option jsstring)) :
  emits (fun c => is_generation_call c = false) (rasterizePage caps pdf i acc).
Proof.
  unfold rasterizePage.
  apply emits_bind; [now apply emits_call|]. intros page.
  apply emits_bind; [now apply emits_call|]. intros _.
  apply emits_bind; [now apply emits_call|]. intros [|].
  - apply emits_bind; [now apply emits_call|]. intros bitmap.
    apply emits_bind; [now apply emits_call|]. intros dataUrl.
    apply emits_ret.
  - apply emits_ret.
Qed.

Lemma extractTextFromImagesWithGemini_emits (caps : Capabilities)
  (images : list (option jsstring)) :
  emits (fun c => c = CallGenerateContent (ocrRequest images))
    (extractTextFromImagesWithGemini caps images).
Proof.
  eexists _, [CallGenerateContent (ocrRequest images)].
  split; [now repeat constructor|].
  intros w. apply extractTextFromImagesWithGemini_run.
Qed.

(** A generation call of the OCR path carries at least one image. *)
Lemma performOcrOnPdf_emits (caps : Capabilities) (file : File) :
  emits (fun c => forall request, c = CallGenerateContent request ->
                  exists img rest, request = ocrRequest (img :: rest))
    (performOcrOnPdf caps file).
Proof.
  unfold performOcrOnPdf.
  apply emits_bind; [apply emits_call; discriminate|]. intros buf.
  apply emits_bind; [apply emits_call; discriminate|]. intros pdf.
  apply emits_bind.
  - eapply emits_weaken; [|apply emits_for_each, rasterizePage_emits].
    intros c Hc request ->. discriminate.
  - intros [|img rest]; simpl.
    + apply emits_throw.
    + eapply emits_weaken; [|apply extractTextFromImagesWithGemini_emits].
      intros c -> request Hr. injection Hr as <-. now exists img, rest.
Qed.

(** ** One attempt *)

(** The state [handleFileChange] leaves for a file of an accepted type. *)
Lemma handleFileChange_accepted (caps : Capabilities) (file : File) (w : World) :
  array_includes acceptedTypes (type file) = true ->
  fst (handleFileChange caps file w) = Returned tt /\
  ui (snd (handleFileChange caps file w)) =
  settle_state file (prologue_state file (ui w))
    (ingestion file (fst (parseFile caps file w))
       (fst (performOcrOnPdf caps file w))).
Proof.
  intros Ha.
  destruct (parseFile_emits caps file) as (po & pl & _ & Hparse).
  destruct (performOcrOnPdf_emits caps file) as (oo & ol & _ & Hocr).
  unfold handleFileChange, scanBranch, acceptOcrText. rewrite Ha.
  destruct w as [s log]. run_m. rewrite !Hparse. simpl fst.
  destruct po as [[initialText isScanned]|e]; run_m; [|split; reflexivity].
  unfold ingestion.
  destruct isScanned; run_m; [|split; reflexivity].
  destruct (JsString.eqb (type file) mime_pdf); [|split; reflexivity].
  rewrite !Hocr. simpl fst. run_m.
  destruct oo as [ocrText|e]; run_m; [|split; reflexivity].
  destruct (ocrTextIsBlank ocrText); run_m; split; reflexivity.
Qed.

Lemma trimStart_nil (t : jsstring) :
  trimStart t = [] <-> forallb isWhiteSpace t = true.
Proof.
  induction t as [|c r IH]; simpl; [tauto|].
  destruct (isWhiteSpace c); simpl; [exact IH|].
  split; discriminate.
Qed.

Lemma trimEnd_nil (s : jsstring) :
  trimEnd s = [] -> forallb isWhiteSpace s = true.
Proof.
  induction s as [|c r IH]; simpl; [reflexivity|].
  destruct (trimEnd r) as [|c' r']; [|discriminate].
  destruct (isWhiteSpace c); [intros _; now apply IH | discriminate].
Qed.

Lemma trim_nil (t : jsstring) :
  trim t = [] <-> forallb isWhiteSpace t = true.
Proof.
  unfold trim. split.
  - intros H. apply trimStart_nil.
    destruct (trimStart_head t) as [H0 | (c & r & H0 & Hc)]; [assumption|].
    rewrite H0 in H. apply trimEnd_nil in H. simpl in H.
    rewrite Hc in H. discriminate.
  - intros H. apply trimStart_nil in H. now rewrite H.
Qed.

(** The test of [handleFileChange] on the OCR text holds exactly for a text
    that is [undefined], empty, or made of white space only. *)
Lemma ocrTextIsBlank_spec (ocrText : option jsstring) :
  ocrTextIsBlank ocrText = true <->
  ocrText = None \/ exists t, ocrText = Some t /\ forallb isWhiteSpace t = true.
Proof.
  destruct ocrText as [t|]; simpl.
  - rewrite orb_true_iff, !Nat.eqb_eq, !length_zero_iff_nil, trim_nil. split.
    + intros [-> | H]; right; eexists; split; reflexivity || assumption.
    + intros [H | (t' & Ht & H)]; [discriminate|].
      injection Ht as <-. now right.
  - split; [now left | reflexivity].
Qed.

(** C4. When an attempt on a file of an accepted type fails, nothing of it
    is exposed: the text is empty and the file is dropped, and the error is
    the message of the failure.  This holds when the extraction throws, when
    the OCR of a PDF classified as scanned throws, and when that OCR gives no
    text; in the last two cases the text first read from the PDF is not used.
    (The outcomes of [parseFile] and of [performOcrOnPdf] do not depend on
    the world they start from, so they are taken at [w].) *)
Theorem failed_ingestion_discards_text
  (caps : Capabilities) (file : File) (w : World) :
  array_includes acceptedTypes (type file) = true ->
  let final := ui (snd (handleFileChange caps file w)) in
  (forall e,
     fst (parseFile caps file w) = Threw e ->
     userCvText final = [] /\ userCvFile final = None /\
     parsingError final = Some (parsingErrorMessage file e)) /\
  (forall initialText,
     fst (parseFile caps file w) = Returned (initialText, true) ->
     type file = mime_pdf ->
     (forall e,
        fst (performOcrOnPdf caps file w) = Threw e ->
        userCvText final = [] /\ userCvFile final = None /\
        parsingError final = Some (parsingErrorMessage file e)) /\
     (forall ocrText,
        fst (performOcrOnPdf caps file w) = Returned ocrText ->
        ocrTextIsBlank ocrText = true ->
        userCvText final = [] /\ userCvFile final = None /\
        parsingError final = Some msg_ocr_no_text)).
Proof.
  intros Ha final. subst final.
  destruct (handleFileChange_accepted caps file w Ha) as [_ ->].
  split.
  - intros e ->. simpl. repeat split.
  - intros initialText -> Ht. unfold ingestion.
    rewrite Ht, eqb_refl. simpl andb. split.
    + intros e ->. simpl. repeat split.
    + intros ocrText -> ->. simpl. repeat split.
Qed.

Lemma ocr_messages_distinct :
  msg_ocr_capability <> msg_ocr_no_text /\ msg_generic_read <> msg_ocr_no_text.
Proof. split; intros H; vm_compute in H; discriminate. Qed.

(** The message shown for the two errors the OCR requester throws. *)
Lemma parsingErrorMessage_ocr_capability (file : File) :
  type file = mime_pdf ->
  parsingErrorMessage file (new_Error msg_ocr_failed) = msg_ocr_capability /\
  parsingErrorMessage file (new_Error msg_invalid_api_key) = msg_generic_read.
Proof.
  intros Ht. unfold parsingErrorMessage. rewrite Ht.
  split; vm_compute; reflexivity.
Qed.

(** C8. In the OCR branch (a PDF that [parseFile] classified as scanned), an
    OCR text that is empty or made of white space only (or [undefined]) ends
    the attempt with the message that the AI could not read any text.  When
    instead the generation call of the OCR requester throws, the attempt ends
    with the message of the failed extraction or, for an invalid API key,
    that of the unreadable file: never with the message of the empty text. *)
Theorem blank_ocr_text_is_its_own_error
  (caps : Capabilities) (file : File) (w : World) (initialText : jsstring) :
  type file = mime_pdf ->
  fst (parseFile caps file w) = Returned (initialText, true) ->
  let final := ui (snd (handleFileChange caps file w)) in
  (forall ocrText,
     fst (performOcrOnPdf caps file w) = Returned ocrText ->
     (ocrText = None \/
      exists t, ocrText = Some t /\ forallb isWhiteSpace t = true) ->
     parsingError final = Some msg_ocr_no_text /\ userCvText final = []) /\
  (forall images e0 e,
     ai_generateContent caps (ocrRequest images) = Threw e0 ->
     fst (extractTextFromImagesWithGemini caps images w) = Threw e ->
     fst (performOcrOnPdf caps file w) = Threw e ->
     (parsingError final = Some msg_ocr_capability \/
      parsingError final = Some msg_generic_read) /\
     parsingError final <> Some msg_ocr_no_text).
Proof.
  intros Ht Hp final. subst final.
  assert (Ha : array_includes acceptedTypes (type file) = true)
    by (rewrite Ht; apply accepted_pdf).
  destruct (handleFileChange_accepted caps file w Ha) as [_ ->].
  rewrite Hp. unfold ingestion. rewrite Ht, eqb_refl. simpl andb.
  destruct (parsingErrorMessage_ocr_capability file Ht) as [Hcap Hkey].
  destruct ocr_messages_distinct as [Hd1 Hd2].
  split.
  - intros ocrText -> Hblank. apply ocrTextIsBlank_spec in Hblank.
    rewrite Hblank. simpl. split; reflexivity.
  - intros images e0 e Hg Hx ->.
    rewrite extractTextFromImagesWithGemini_run, Hg in Hx. simpl in Hx.
    injection Hx as <-. cbn [settle_state parsingError].
    destruct (instanceof_Error e0 && includes (message e0) (lit "API key not valid")).
    + rewrite Hkey. split; [now right|]. intros H. apply Hd2. congruence.
    + rewrite Hcap. split; [now left|]. intros H. apply Hd1. congruence.
Qed.

(** ** The page rasterizer *)

Lemma split_on_from_no_sep (sep : code_unit) (s cur : jsstring) :
  ~ In sep s -> split_on_from sep cur s = [rev cur ++ s].
Proof.
  revert cur. induction s as [|c r IH]; intros cur Hn; simpl.
  - now rewrite app_nil_r.
  - destruct (N.eqb_spec c sep) as [->|Hc].
    + exfalso. apply Hn. now left.
    + rewrite IH by (intros H; apply Hn; now right).
      simpl. now rewrite <- app_assoc.
Qed.

Lemma split_on_from_first (sep : code_unit) (pre rest cur : jsstring) :
  ~ In sep pre ->
  split_on_from sep cur (pre ++ sep :: rest)
  = (rev cur ++ pre) :: split_on_from sep [] rest.
Proof.
  revert cur. induction pre as [|c r IH]; intros cur Hn; simpl.
  - rewrite N.eqb_refl. now rewrite app_nil_r.
  - destruct (N.eqb_spec c sep) as [->|Hc].
    + exfalso. apply Hn. now left.
    + rewrite IH by (intros H; apply Hn; now right).
      simpl. now rewrite <- app_assoc.
Qed.

(** Of a data URL [prefix,payload] the payload is kept. *)
Lemma strip_data_url_prefix_payload (pre payload : jsstring) :
  ~ In 0x2C%N pre -> ~ In 0x2C%N payload ->
  strip_data_url_prefix (pre ++ 0x2C%N :: payload) = Some payload.
Proof.
  intros Hpre Hpay. unfold strip_data_url_prefix, split_on.
  rewrite split_on_from_first by assumption.
  rewrite split_on_from_no_sep by assumption. reflexivity.
Qed.

(** The page loop, when each page is fetched and rendered without a throw. *)
Lemma rasterize_loop (caps : Capabilities) (pdf : PDFDocument)
  (page : nat -> PDFPage) (bitmap : nat -> Bitmap) (idx : list nat) :
  (forall i, In i idx ->
     getPage pdf i = Returned (page i) /\
     render (page i) (2 # 1) = Returned (bitmap i)) ->
  forall acc w,
    for_each idx (rasterizePage caps pdf) acc w =
    (Returned (acc ++ pageImages caps bitmap idx),
     mkWorld (ui w) (calls w ++ flat_map (pageCalls caps) idx)).
Proof.
  induction idx as [|i idx IH]; intros Hok acc [s log].
  - simpl. unfold ret. now rewrite !app_nil_r.
  - destruct (Hok i (or_introl eq_refl)) as [Hpage Hrender].
    assert (Hok' : forall j, In j idx ->
              getPage pdf j = Returned (page j) /\
              render (page j) (2 # 1) = Returned (bitmap j))
      by (intros j Hj; apply Hok; now right).
    cbn [for_each]. unfold bind at 1. unfold rasterizePage at 1.
    cbv beta iota zeta delta [bind ret call ui calls ocrScale jpegQuality].
    rewrite Hpage. unfold pageImages, pageCalls. cbn [flat_map].
    destruct (canvas_getContext caps i).
    + unfold ocrScale in *. rewrite Hrender.
      rewrite (IH Hok'). cbn [ui calls]. unfold pageImages, pageImage, pageCalls.
      rewrite <- !app_assoc. cbn [app]. reflexivity.
    + rewrite (IH Hok'). cbn [ui calls]. unfold pageImages, pageImage, pageCalls.
      rewrite <- !app_assoc. cbn [app]. reflexivity.
Qed.

Lemma pageImages_filter (caps : Capabilities) (bitmap : nat -> Bitmap)
  (idx : list nat) :
  pageImages caps bitmap idx =
  map (fun i => pageImage caps (bitmap i)) (filter (canvas_getContext caps) idx).
Proof.
  unfold pageImages. induction idx as [|i idx IH]; simpl; [reflexivity|].
  destruct (canvas_getContext caps i); simpl; now rewrite IH.
Qed.

Lemma fetched_pageCalls (caps : Capabilities) (idx : list nat) :
  fetched_pages (flat_map (pageCalls caps) idx) = idx.
Proof.
  unfold fetched_pages. induction idx as [|i idx IH]; simpl; [reflexivity|].
  rewrite flat_map_app, IH.
  destruct (canvas_getContext caps i); reflexivity.
Qed.

Lemma rendered_pageCalls (caps : Capabilities) (idx : list nat) :
  rendered_pages (flat_map (pageCalls caps) idx) =
  map (fun i => (i, 2 # 1)) (filter (canvas_getContext caps) idx).
Proof.
  unfold rendered_pages. induction idx as [|i idx IH]; simpl; [reflexivity|].
  rewrite flat_map_app, IH.
  destruct (canvas_getContext caps i); reflexivity.
Qed.

Lemma encoded_pageCalls (caps : Capabilities) (idx : list nat) :
  encoded_pages (flat_map (pageCalls caps) idx) =
  map (fun i => (i, lit "image/jpeg", 9 # 10)) (filter (canvas_getContext caps) idx).
Proof.
  unfold encoded_pages. induction idx as [|i idx IH]; simpl; [reflexivity|].
  rewrite flat_map_app, IH.
  destruct (canvas_getContext caps i); reflexivity.
Qed.

Lemma generation_pageCalls (caps : Capabilities) (idx : list nat) :
  filter is_generation_call (flat_map (pageCalls caps) idx) = [].
Proof.
  induction idx as [|i idx IH]; simpl; [reflexivity|].
  rewrite filter_app, IH.
  destruct (canvas_getContext caps i); reflexivity.
Qed.

(** [performOcrOnPdf] when the document opens and its first pages are
    fetched and rendered without a throw. *)
Lemma performOcrOnPdf_run (caps : Capabilities) (file : File)
  (buf : ArrayBuffer) (pdf : PDFDocument)
  (page : nat -> PDFPage) (bitmap : nat -> Bitmap) (w : World) :
  arrayBuffer file = Returned buf ->
  pdfjs_getDocument caps buf = Returned pdf ->
  (forall i, 1 <= i <= Nat.min (numPages pdf) 5 ->
     getPage pdf i = Returned (page i) /\
     render (page i) (2 # 1) = Returned (bitmap i)) ->
  let pages := seq 1 (Nat.min (numPages pdf) 5) in
  let w1 := mkWorld (ui w)
              (calls w ++ [CallArrayBuffer; CallGetDocument buf]
                 ++ flat_map (pageCalls caps) pages) in
  performOcrOnPdf caps file w =
  match pageImages caps bitmap pages with
  | [] => (Threw (new_Error msg_no_images), w1)
  | images => extractTextFromImagesWithGemini caps images w1
  end.
Proof.
  intros Hb Hp Hok pages w1. subst pages w1.
  unfold performOcrOnPdf. unfold bind at 1. unfold call at 1. rewrite Hb.
  unfold bind at 1. unfold call at 1. rewrite Hp.
  unfold bind at 1. unfold ocrPageCap.
  rewrite (@rasterize_loop caps pdf page bitmap).
  - cbn [ui calls app]. rewrite <- !app_assoc. cbn [app].
    destruct (pageImages caps bitmap (seq 1 (Nat.min (numPages pdf) 5)));
      reflexivity.
  - intros i Hi. apply Hok. apply in_seq in Hi. lia.
Qed.

(** C5. For a PDF that opens and whose first pages are fetched and rendered
    without a throw, the rasterizer fetches exactly the pages 1 to
    min(pageCount, 5), in that order; every page whose canvas gives a 2D
    context (every page, when all canvases do) is rendered at the scale 2.0
    and encoded as JPEG at the quality 0.9, in page order, and its image is
    the data URL without its prefix.  When no image results the rasterizer
    throws its own error and no generation call is made; otherwise the images
    are handed over, in page order, in one request. *)
Theorem rasterizer_first_pages_in_order
  (caps : Capabilities) (file : File) (buf : ArrayBuffer) (pdf : PDFDocument)
  (page : nat -> PDFPage) (bitmap : nat -> Bitmap) (w : World) :
  arrayBuffer file = Returned buf ->
  pdfjs_getDocument caps buf = Returned pdf ->
  (forall i, 1 <= i <= Nat.min (numPages pdf) 5 ->
     getPage pdf i = Returned (page i) /\
     render (page i) (2 # 1) = Returned (bitmap i)) ->
  let pages := seq 1 (Nat.min (numPages pdf) 5) in
  let withContext := filter (canvas_getContext caps) pages in
  let images := map (fun i => pageImage caps (bitmap i)) withContext in
  let r := performOcrOnPdf caps file w in
  let log := new_calls w (snd r) in
  fetched_pages log = pages /\
  rendered_pages log = map (fun i => (i, 2 # 1)) withContext /\
  encoded_pages log = map (fun i => (i, lit "image/jpeg", 9 # 10)) withContext /\
  ((forall i, canvas_getContext caps i = true) -> withContext = pages) /\
  (images = [] ->
   fst r = Threw (new_Error msg_no_images) /\
   filter is_generation_call log = []) /\
  (images <> [] ->
   fst r = fst (extractTextFromImagesWithGemini caps images w) /\
   filter is_generation_call log = [CallGenerateContent (ocrRequest images)]) /\
  (forall pre payload,
     ~ In 0x2C%N pre -> ~ In 0x2C%N payload ->
     strip_data_url_prefix (pre ++ 0x2C%N :: payload) = Some payload).
Proof.
  intros Hb Hp Hok pages withContext images r log.
  assert (Hlog :
    log = ([CallArrayBuffer; CallGetDocument buf] ++ flat_map (pageCalls caps) pages)
          ++ match images with
             | [] => []
             | _ => [CallGenerateContent (ocrRequest images)]
             end /\
    fst r = match images with
            | [] => Threw (new_Error msg_no_images)
            | _ => fst (extractTextFromImagesWithGemini caps images w)
            end).
  { subst log r.
    rewrite (performOcrOnPdf_run caps file buf pdf page bitmap w Hb Hp Hok).
    fold pages. rewrite pageImages_filter. fold withContext. fold images.
    destruct images as [|img rest].
    - split; [|reflexivity]. apply new_calls_app. simpl.
      now rewrite app_nil_r.
    - rewrite !extractTextFromImagesWithGemini_run. split; [|reflexivity].
      apply new_calls_app. simpl. now rewrite <- app_assoc. }
  destruct Hlog as [Hlog Hfst].
  assert (Hfetch : fetched_pages log = pages).
  { rewrite Hlog. unfold fetched_pages. rewrite !flat_map_app.
    fold (fetched_pages (flat_map (pageCalls caps) pages)).
    rewrite fetched_pageCalls. destruct images; simpl; now rewrite app_nil_r. }
  assert (Hrender : rendered_pages log = map (fun i => (i, 2 # 1)) withContext).
  { rewrite Hlog. unfold rendered_pages. rewrite !flat_map_app.
    fold (rendered_pages (flat_map (pageCalls caps) pages)).
    rewrite rendered_pageCalls. destruct images; simpl; now rewrite app_nil_r. }
  assert (Hencode : encoded_pages log
                    = map (fun i => (i, lit "image/jpeg", 9 # 10)) withContext).
  { rewrite Hlog. unfold encoded_pages. rewrite !flat_map_app.
    fold (encoded_pages (flat_map (pageCalls caps) pages)).
    rewrite encoded_pageCalls. destruct images; simpl; now rewrite app_nil_r. }
  assert (Hgen : filter is_generation_call log
                 = match images with
                   | [] => []
                   | _ => [CallGenerateContent (ocrRequest images)]
                   end).
  { rewrite Hlog, !filter_app, generation_pageCalls.
    destruct images; reflexivity. }
  repeat split; try assumption.
  - intros Hall. subst withContext. apply forallb_filter_id.
    apply forallb_forall. intros i _. apply Hall.
  - rewrite Hfst. destruct images; [reflexivity|discriminate].
  - rewrite Hgen. destruct images; [reflexivity|discriminate].
  - rewrite Hfst. destruct images; [contradiction|reflexivity].
  - rewrite Hgen. destruct images; [contradiction|reflexivity].
  - apply strip_data_url_prefix_payload.
Qed.

(** C7 as the code has it: the empty sequence is not rejected by the
    requester, but by its caller.  On the empty sequence the OCR requester makes its
    one generation call, with the instruction as the only part, and returns
    what the service answers; and every generation call [performOcrOnPdf]
    causes carries at least one image, since it throws before calling the
    requester when no page was rasterized. *)
Theorem empty_images_rejected_by_caller (caps : Capabilities) (w : World) :
  (let r := extractTextFromImagesWithGemini caps [] w in
   new_calls w (snd r) = [CallGenerateContent (ocrRequest [])] /\
   contents (ocrRequest []) = PartsContents [TextPart ocr_prompt] /\
   match ai_generateContent caps (ocrRequest []) with
   | Returned text => fst r = Returned text
   | Threw _ => exists e, fst r = Threw e
   end) /\
  (forall file,
     Forall (fun c => forall request, c = CallGenerateContent request ->
                      exists img rest, request = ocrRequest (img :: rest))
       (new_calls w (snd (performOcrOnPdf caps file w)))).
Proof.
  split.
  - cbv zeta. rewrite extractTextFromImagesWithGemini_run. simpl fst. simpl snd.
    rewrite (@new_calls_app w _ [CallGenerateContent (ocrRequest [])]);
      [|reflexivity].
    repeat split.
    destruct (ai_generateContent caps (ocrRequest [])); [reflexivity|].
    eexists. reflexivity.
  - intros file. apply emits_new_calls, performOcrOnPdf_emits.
Qed.

(** ** Attempts in flight *)

Lemma Forall_replace_nth {A} (P : A -> Prop) (k : nat) (x : A) (l : list A) :
  Forall P l -> P x -> Forall P (replace_nth k x l).
Proof.
  intros Hl Hx. revert k. induction Hl as [|y l Hy Hl IH]; intros [|k]; simpl;
    constructor; auto.
Qed.

Lemma Forall_remove_nth {A} (P : A -> Prop) (k : nat) (l : list A) :
  Forall P l -> Forall P (remove_nth k l).
Proof.
  intros Hl. revert k. induction Hl as [|y l Hy Hl IH]; intros [|k]; simpl;
    auto.
Qed.

Lemma map_replace_nth {A B} (g : A -> B) (k : nat) (t t' : A) (l : list A) :
  nth_error l k = Some t -> g t' = g t ->
  map g (replace_nth k t' l) = map g l.
Proof.
  revert k. induction l as [|y l IH]; intros [|k] Hn Hg; simpl in *;
    try discriminate.
  - injection Hn as ->. now rewrite Hg.
  - now rewrite (IH k Hn Hg).
Qed.

Lemma Permutation_remove_nth {A B} (g : A -> B) (k : nat) (t : A) (l : list A) :
  nth_error l k = Some t ->
  Permutation (map g l) (g t :: map g (remove_nth k l)).
Proof.
  revert k. induction l as [|y l IH]; intros [|k] Hn; simpl in *;
    try discriminate.
  - injection Hn as ->. reflexivity.
  - rewrite (IH k Hn). apply perm_swap.
Qed.

(** What an attempt run alone leaves, by the outcomes of its two steps. *)
Lemma alone_accepted (caps : Capabilities) (file : File) :
  array_includes acceptedTypes (type file) = true ->
  alone caps file =
  settle_state file (prologue_state file initialState)
    (ingestion file (fst (parseFile caps file world0))
       (fst (performOcrOnPdf caps file world0))).
Proof.
  intros Ha. unfold alone.
  now destruct (handleFileChange_accepted caps file world0 Ha) as [_ ->].
Qed.

(** One step of an attempt in flight: either it reaches its second await and
    writes neither the text nor the error, or it ends and writes the text it
    would leave alone, and its error if it failed. *)
Lemma resume_reachable (caps : Capabilities) (t : Suspended) (w : World) :
  reachable_attempt caps t ->
  (exists t' w',
     handleFileChange_resume caps t w = (Returned (Some t'), w') /\
     reachable_attempt caps t' /\
     suspended_file t' = suspended_file t /\
     userCvText (ui w') = userCvText (ui w) /\
     parsingError (ui w') = parsingError (ui w)) \/
  (exists w',
     handleFileChange_resume caps t w = (Returned None, w') /\
     userCvText (ui w') = userCvText (alone caps (suspended_file t)) /\
     parsingError (ui w') =
       match parsingError (alone caps (suspended_file t)) with
       | Some m => Some m
       | None => parsingError (ui w)
       end).
Proof.
  intros [Ha Hr].
  rewrite (alone_accepted caps _ Ha).
  destruct t as [file|file]; simpl suspended_file in *.
  - destruct (parseFile_emits caps file) as (po & pl & _ & Hparse).
    unfold handleFileChange_resume. rewrite !Hparse. simpl fst.
    destruct w as [s log].
    destruct po as [[initialText isScanned]|e].
    + unfold ingestion.
      destruct (isScanned && JsString.eqb (type file) mime_pdf) eqn:Hs.
      * left. apply andb_true_iff in Hs as [-> Hpdf]. apply eqb_eq in Hpdf.
        eexists _, _. split; [reflexivity|]. run_m.
        repeat split; try assumption.
        exists initialText. now rewrite Hparse.
      * right. eexists. split; [reflexivity|]. run_m. split; reflexivity.
    + right. eexists. split; [reflexivity|]. run_m. split; reflexivity.
  - destruct Hr as [Ht [text Hp]]. rewrite Hp.
    destruct (performOcrOnPdf_emits caps file) as (oo & ol & _ & Hocr).
    right. unfold handleFileChange_resume, scanBranch, acceptOcrText.
    destruct w as [s log]. run_m. rewrite !Hocr. simpl fst.
    unfold ingestion. rewrite Ht, eqb_refl. simpl andb.
    destruct oo as [ocrText|e]; run_m.
    + destruct (ocrTextIsBlank ocrText); run_m;
        (eexists; split; [reflexivity|]; split; reflexivity).
    + eexists; split; [reflexivity|]; split; reflexivity.
Qed.

(** The writes of the attempts that end, in the order they end. *)
Lemma run_resumes (caps : Capabilities) (ks : list nat) :
  forall c,
    Forall (reachable_attempt caps) (inflight c) ->
    let c' := run caps (map Resume ks) c in
    let done := settled caps (map Resume ks) c in
    Forall (reachable_attempt caps) (inflight c') /\
    Permutation (map suspended_file (inflight c))
      (done ++ map suspended_file (inflight c')) /\
    userCvText (ui (world c')) =
      fold_left (fun _ f => userCvText (alone caps f)) done
        (userCvText (ui (world c))) /\
    parsingError (ui (world c')) =
      fold_left (fun err f => match parsingError (alone caps f) with
                              | Some m => Some m
                              | None => err
                              end) done
        (parsingError (ui (world c))).
Proof.
  induction ks as [|k ks IH]; intros c Hc.
  - simpl. repeat split; [assumption | reflexivity].
  - cbn [map run fold_left settled].
    fold (run caps (map Resume ks) (dispatch caps (Resume k) c)).
    unfold settled_by, dispatch.
    destruct (nth_error (inflight c) k) as [t|] eqn:Hk.
    + assert (Ht : reachable_attempt caps t).
      { rewrite Forall_forall in Hc. apply Hc.
        eapply nth_error_In; eassumption. }
      destruct (resume_reachable caps t (world c) Ht)
        as [(t' & w' & -> & Ht' & Hf & Htext & Herr)
           | (w' & -> & Htext & Herr)].
      * specialize (IH (mkConfig' w' (replace_nth k t' (inflight c)))).
        cbn [inflight world] in IH.
        destruct IH as (IH1 & IH2 & IH3 & IH4);
          [now apply Forall_replace_nth|].
        rewrite (map_replace_nth suspended_file k t t' _ Hk Hf) in IH2.
        rewrite Htext in IH3. rewrite Herr in IH4.
        repeat split; assumption.
      * specialize (IH (mkConfig' w' (remove_nth k (inflight c)))).
        cbn [inflight world] in IH.
        destruct IH as (IH1 & IH2 & IH3 & IH4);
          [now apply Forall_remove_nth|].
        rewrite Htext in IH3. rewrite Herr in IH4.
        cbn [fold_left app]. repeat split; try assumption.
        rewrite (Permutation_remove_nth suspended_file k t _ Hk).
        now apply perm_skip.
    + apply IH. assumption.
Qed.

(** Selecting a file of an accepted type puts one more attempt in flight and
    empties the text and the error. *)
Lemma select_accepted (caps : Capabilities) (file : File) (c : Config) :
  array_includes acceptedTypes (type file) = true ->
  let c' := dispatch caps (SelectFile file) c in
  inflight c' = inflight c ++ [AwaitingParseFile file] /\
  userCvText (ui (world c')) = [] /\
  parsingError (ui (world c')) = None /\
  userCvFile (ui (world c')) = Some file.
Proof.
  intros Ha. destruct c as [[s log] fl]. cbv zeta.
  unfold dispatch, handleFileChange_start.
  cbn [world inflight]. rewrite Ha. run_m. cbn [world inflight].
  repeat split.
Qed.

Lemma run_cons (caps : Capabilities) (e : Event) (es : list Event) (c : Config) :
  run caps (e :: es) c = run caps es (dispatch caps e c).
Proof. reflexivity. Qed.

(** C3 as the code has it.  A file is selected, its attempt takes some of
    its steps and is still in flight when a second file is selected; then
    both attempts run to their end, their steps interleaved in any way.  The
    text shown at the end is the one of the attempt that ended last,
    whichever file it is on, and the error shown is that of the attempt that
    ended last if it failed, and otherwise that of the other attempt, if it
    failed. *)
Theorem last_settled_attempt_wins
  (caps : Capabilities) (fA fB : File) (w : World) (ks0 ks : list nat) :
  array_includes acceptedTypes (type fA) = true ->
  array_includes acceptedTypes (type fB) = true ->
  let cA := run caps (SelectFile fA :: map Resume ks0) (mkConfig' w []) in
  inflight cA <> [] ->
  let c0 := dispatch caps (SelectFile fB) cA in
  let c' := run caps (map Resume ks) c0 in
  inflight c' = [] ->
  exists first last,
    settled caps (map Resume ks) c0 = [first; last] /\
    ((first = fA /\ last = fB) \/ (first = fB /\ last = fA)) /\
    userCvText (ui (world c')) = userCvText (alone caps last) /\
    parsingError (ui (world c')) =
      match parsingError (alone caps last) with
      | Some m => Some m
      | None => parsingError (alone caps first)
      end.
Proof.
  intros HA HB cA Hflight c0 c' Hdone.
  (* the first attempt, up to the second selection *)
  destruct (select_accepted caps fA (mkConfig' w []) HA) as (HflA & _).
  cbn [inflight app] in HflA.
  assert (HreachA : Forall (reachable_attempt caps)
                      (inflight (dispatch caps (SelectFile fA) (mkConfig' w [])))).
  { rewrite HflA. repeat constructor; assumption. }
  destruct (run_resumes caps ks0 _ HreachA) as (Hreach1 & Hperm1 & _).
  rewrite <- run_cons in Hreach1, Hperm1. fold cA in Hreach1, Hperm1.
  rewrite HflA in Hperm1. simpl map in Hperm1.
  assert (Hone : exists t, inflight cA = [t] /\ suspended_file t = fA).
  { pose proof (Permutation_length Hperm1) as Hlen.
    rewrite length_app, length_map in Hlen. simpl in Hlen.
    destruct (inflight cA) as [|t [|t' rest]] eqn:Hfl;
      [contradiction | | simpl in Hlen; lia].
    exists t. split; [reflexivity|].
    destruct (settled caps (map Resume ks0) _) as [|d ds];
      [|simpl in Hlen; lia].
    simpl in Hperm1. apply Permutation_length_1 in Hperm1. now symmetry. }
  destruct Hone as (t & Hfl & Hft).
  (* the second selection *)
  destruct (select_accepted caps fB cA HB) as (Hfl0 & Htext0 & Herr0 & _).
  fold c0 in Hfl0, Htext0, Herr0. rewrite Hfl in Hfl0. cbn [app] in Hfl0.
  assert (Hreach : Forall (reachable_attempt caps) (inflight c0)).
  { rewrite Hfl0. rewrite Hfl in Hreach1.
    apply Forall_inv in Hreach1.
    constructor; [assumption|]. constructor; [|constructor].
    split; [assumption | exact I]. }
  (* both attempts to their end *)
  destruct (run_resumes caps ks c0 Hreach) as (_ & Hperm & Htext & Herr).
  fold c' in Hperm, Htext, Herr.
  rewrite Hdone, Hfl0, app_nil_r in Hperm. simpl map in Hperm.
  rewrite Hft in Hperm.
  rewrite Htext0 in Htext. rewrite Herr0 in Herr.
  apply Permutation_length_2_inv in Hperm.
  destruct Hperm as [Hs | Hs]; rewrite Hs in Htext, Herr |- *;
    simpl in Htext, Herr.
  - exists fA, fB. repeat split; auto.
    rewrite Herr. destruct (parsingError (alone caps fB)); [reflexivity|].
    destruct (parsingError (alone caps fA)); reflexivity.
  - exists fB, fA. repeat split; auto.
    rewrite Herr. destruct (parsingError (alone caps fA)); [reflexivity|].
    destruct (parsingError (alone caps fB)); reflexivity.
Qed.

(** C3, a counterexample.  Two DOCX files, the second selected while the
    first is read; the second attempt ends first and the first one later.
    The component shows the second file with the text of the first. *)
Lemma stale_attempt_overwrites_newer :
  let c := run demo_caps
             [SelectFile docx_alpha; SelectFile docx_beta; Resume 1; Resume 0]
             (mkConfig' world0 []) in
  inflight c = [] /\
  userCvFile (ui (world c)) = Some docx_beta /\
  userCvText (alone demo_caps docx_beta) = lit "beta" /\
  userCvText (ui (world c)) = lit "alpha" /\
  userCvText (ui (world c)) <> userCvText (alone demo_caps docx_beta).
Proof.
  cbv zeta. repeat split; try (vm_compute; reflexivity).
  intros H. vm_compute in H. discriminate.
Qed.

(** The steps of an attempt, taken one after the other with nothing in
    between, are [handleFileChange] run without interruption. *)
Lemma handleFileChange_as_steps (caps : Capabilities) (file : File) (w : World) :
  array_includes acceptedTypes (type file) = true ->
  run caps [SelectFile file; Resume 0; Resume 0] (mkConfig' w [])
  = mkConfig' (snd (handleFileChange caps file w)) [].
Proof.
  intros Ha.
  destruct (parseFile_emits caps file) as (po & pl & _ & Hparse).
  destruct (performOcrOnPdf_emits caps file) as (oo & ol & _ & Hocr).
  destruct w as [s log]. unfold run. cbn [fold_left].
  unfold dispatch at 3. unfold handleFileChange_start.
  unfold handleFileChange, scanBranch, acceptOcrText.
  cbn [world inflight]. rewrite Ha. run_m. cbn [world inflight app].
  unfold dispatch at 2. cbn [world inflight nth_error].
  unfold handleFileChange_resume at 1. rewrite !Hparse.
  destruct po as [[initialText isScanned]|e]; run_m;
    [|cbn [remove_nth]; reflexivity].
  destruct isScanned; run_m; [|cbn [remove_nth]; reflexivity].
  destruct (JsString.eqb (type file) mime_pdf); run_m;
    [|cbn [remove_nth]; reflexivity].
  cbn [replace_nth]. unfold dispatch. cbn [world inflight nth_error].
  unfold handleFileChange_resume, scanBranch, acceptOcrText. run_m.
  rewrite !Hocr. run_m.
  destruct oo as [ocrText|e]; run_m; [|reflexivity].
  destruct (ocrTextIsBlank ocrText); run_m; reflexivity.
Qed.

(** ** The properties at concrete inputs *)

(** A PDF of two pages without a text layer is scanned; a DOCX is not. *)
Lemma scan_heuristic_witness :
  (exists buf pdf,
     arrayBuffer scanned_pdf = Returned buf /\
     pdfjs_getDocument demo_caps buf = Returned pdf /\
     (true = true <-> 0 < numPages pdf /\ word_count (LF ++ LF) < 50)) /\
  ((forall text isScanned w',
      parseFile demo_caps docx_alpha world0 = (Returned (text, isScanned), w') ->
      isScanned = false) /\
   Forall (fun c => is_ocr_call c = false)
     (new_calls world0 (snd (handleFileChange demo_caps docx_alpha world0)))).
Proof.
  destruct scan_heuristic_and_docx_never_ocr as (_ & Hpdf & Hdocx).
  split.
  - apply (Hpdf demo_caps scanned_pdf world0 (LF ++ LF) true
             (snd (parseFile demo_caps scanned_pdf world0))).
    + reflexivity.
    + vm_compute. reflexivity.
  - apply (Hdocx demo_caps docx_alpha world0). reflexivity.
Defined.

Lemma unsupported_type_witness :
  fst (handleFileChange demo_caps plain_text_file world0) = Returned tt /\
  parsingError (ui (snd (handleFileChange demo_caps plain_text_file world0)))
    = Some msg_invalid_type /\
  calls (snd (handleFileChange demo_caps plain_text_file world0)) = calls world0 /\
  handleFileChange_start plain_text_file world0
    = (Returned None, snd (handleFileChange demo_caps plain_text_file world0)) /\
  (forall c, inflight (dispatch demo_caps (SelectFile plain_text_file) c)
             = inflight c) /\
  (forall caps' file',
     type file' = type plain_text_file ->
     handleFileChange caps' file' world0
     = handleFileChange demo_caps plain_text_file world0).
Proof.
  apply (unsupported_type_rejected_immediately demo_caps plain_text_file world0).
  - intros H. vm_compute in H. discriminate.
  - intros H. vm_compute in H. discriminate.
Defined.

(** After the DOCX [docx_alpha] was ingested, a plain text file is selected. *)
Lemma unsupported_type_frame_witness :
  let w := snd (handleFileChange demo_caps docx_alpha world0) in
  userCvFile (ui w) = Some docx_alpha /\
  userCvText (ui w) = lit "alpha" /\
  userCvFile (ui (snd (handleFileChange demo_caps plain_text_file w)))
    = Some docx_alpha /\
  userCvText (ui (snd (handleFileChange demo_caps plain_text_file w)))
    = lit "alpha" /\
  parsingError (ui (snd (handleFileChange demo_caps plain_text_file w)))
    = Some msg_invalid_type /\
  userCvFile (ui (snd (handleFileClear w))) = None.
Proof.
  cbv zeta.
  destruct (unsupported_type_only_sets_error demo_caps plain_text_file
              (snd (handleFileChange demo_caps docx_alpha world0)))
    as [(He & Hf & Ht & _) (Hc & _)].
  - intros H. vm_compute in H. discriminate.
  - intros H. vm_compute in H. discriminate.
  - split; [vm_compute; reflexivity|]. split; [vm_compute; reflexivity|].
    split; [rewrite Hf; vm_compute; reflexivity|].
    split; [rewrite Ht; vm_compute; reflexivity|].
    split; [exact He | exact Hc].
Defined.

(** A generation service that fails, one that answers with white space, and
    a canvas without a 2D context. *)
Lemma failed_ingestion_witness :
  let empty_pdf := mkFile mime_pdf (Returned []) in
  let failing := demo_caps_with (fun _ => true) (Threw (new_Error "quota")) [] in
  let blank := demo_caps_with (fun _ => true) (Returned (Some (lit "  "))) [] in
  (userCvText (ui (snd (handleFileChange demo_caps empty_pdf world0))) = [] /\
   userCvFile (ui (snd (handleFileChange demo_caps empty_pdf world0))) = None /\
   parsingError (ui (snd (handleFileChange demo_caps empty_pdf world0)))
     = Some msg_corrupt_pdf) /\
  (userCvText (ui (snd (handleFileChange failing scanned_pdf world0))) = [] /\
   userCvFile (ui (snd (handleFileChange failing scanned_pdf world0))) = None /\
   parsingError (ui (snd (handleFileChange failing scanned_pdf world0)))
     = Some msg_ocr_capability) /\
  (userCvText (ui (snd (handleFileChange blank scanned_pdf world0))) = [] /\
   userCvFile (ui (snd (handleFileChange blank scanned_pdf world0))) = None /\
   parsingError (ui (snd (handleFileChange blank scanned_pdf world0)))
     = Some msg_ocr_no_text).
Proof.
  cbv zeta. split; [|split].
  - destruct (failed_ingestion_discards_text demo_caps
                (mkFile mime_pdf (Returned [])) world0) as [H _].
    + reflexivity.
    + apply (H (mkError true false (lit "InvalidPDFException")
                  (lit "The PDF file is empty, i.e. its size is zero bytes."))).
      vm_compute. reflexivity.
  - destruct (failed_ingestion_discards_text
                (demo_caps_with (fun _ => true) (Threw (new_Error "quota")) [])
                scanned_pdf world0) as [_ H].
    + reflexivity.
    + destruct (H (LF ++ LF)) as [Hthrow _].
      * vm_compute. reflexivity.
      * reflexivity.
      * apply (Hthrow (new_Error msg_ocr_failed)). vm_compute. reflexivity.
  - destruct (failed_ingestion_discards_text
                (demo_caps_with (fun _ => true) (Returned (Some (lit "  "))) [])
                scanned_pdf world0) as [_ H].
    + reflexivity.
    + destruct (H (LF ++ LF)) as [_ Hblank].
      * vm_compute. reflexivity.
      * reflexivity.
      * apply (Hblank (Some (lit "  "))); vm_compute; reflexivity.
Defined.

Lemma blank_ocr_text_witness :
  let failing := demo_caps_with (fun _ => true) (Threw (new_Error "quota")) [] in
  let blank := demo_caps_with (fun _ => true) (Returned (Some (lit "  "))) [] in
  (parsingError (ui (snd (handleFileChange blank scanned_pdf world0)))
     = Some msg_ocr_no_text /\
   userCvText (ui (snd (handleFileChange blank scanned_pdf world0))) = []) /\
  ((parsingError (ui (snd (handleFileChange failing scanned_pdf world0)))
      = Some msg_ocr_capability \/
    parsingError (ui (snd (handleFileChange failing scanned_pdf world0)))
      = Some msg_generic_read) /\
   parsingError (ui (snd (handleFileChange failing scanned_pdf world0)))
     <> Some msg_ocr_no_text).
Proof.
  cbv zeta. split.
  - destruct (blank_ocr_text_is_its_own_error
                (demo_caps_with (fun _ => true) (Returned (Some (lit "  "))) [])
                scanned_pdf world0 (LF ++ LF)) as [H _].
    + reflexivity.
    + vm_compute. reflexivity.
    + apply (H (Some (lit "  "))).
      * vm_compute. reflexivity.
      * right. exists (lit "  "). split; reflexivity.
  - destruct (blank_ocr_text_is_its_own_error
                (demo_caps_with (fun _ => true) (Threw (new_Error "quota")) [])
                scanned_pdf world0 (LF ++ LF)) as [_ H].
    + reflexivity.
    + vm_compute. reflexivity.
    + apply (H [Some [0%N]; Some [0%N]] (new_Error "quota")
               (new_Error msg_ocr_failed)); vm_compute; reflexivity.
Defined.

(** A scanned PDF of twelve pages: the pages 1 to 5 are fetched, rendered at
    2.0 and encoded, and one request carries the five images. *)
Lemma rasterizer_witness :
  let file := mkFile mime_pdf (Returned (repeat 0%N 12)) in
  let log := new_calls world0 (snd (performOcrOnPdf demo_caps file world0)) in
  fetched_pages log = [1; 2; 3; 4; 5] /\
  rendered_pages log = [(1, 2 # 1); (2, 2 # 1); (3, 2 # 1); (4, 2 # 1); (5, 2 # 1)] /\
  filter is_generation_call log
    = [CallGenerateContent (ocrRequest (repeat (Some [0%N]) 5))].
Proof.
  cbv zeta.
  destruct (rasterizer_first_pages_in_order demo_caps
              (mkFile mime_pdf (Returned (repeat 0%N 12)))
              (repeat 0%N 12) (demo_pdf (repeat 0%N 12))
              (fun _ => demo_page 0%N) (fun _ => [0%N]) world0)
    as (Hf & Hr & _ & _ & _ & Hne & _).
  - reflexivity.
  - reflexivity.
  - intros i Hi. simpl in Hi.
    assert (Hcases : i = 1 \/ i = 2 \/ i = 3 \/ i = 4 \/ i = 5) by lia.
    destruct Hcases as [-> | [-> | [-> | [-> | ->]]]]; split; reflexivity.
  - split; [exact Hf|]. split; [exact Hr|].
    destruct Hne as [_ Hg].
    + intros H. vm_compute in H. discriminate.
    + exact Hg.
Defined.

(** A scanned PDF and a DOCX: the PDF is read, and the DOCX is selected
    while the OCR of the PDF is awaited; the DOCX is read first, then the OCR
    answers, and its text replaces the one of the DOCX. *)
Lemma last_settled_witness :
  let cA := run demo_caps (SelectFile scanned_pdf :: map Resume [0])
              (mkConfig' world0 []) in
  let c0 := dispatch demo_caps (SelectFile docx_beta) cA in
  let c' := run demo_caps (map Resume [1; 0]) c0 in
  userCvText (ui (world c')) = lit "Jane Doe" /\
  exists first last,
    settled demo_caps (map Resume [1; 0]) c0 = [first; last] /\
    ((first = scanned_pdf /\ last = docx_beta) \/
     (first = docx_beta /\ last = scanned_pdf)) /\
    userCvText (ui (world c')) = userCvText (alone demo_caps last) /\
    parsingError (ui (world c')) =
      match parsingError (alone demo_caps last) with
      | Some m => Some m
      | None => parsingError (alone demo_caps first)
      end.
Proof.
  cbv zeta. split; [vm_compute; reflexivity|].
  apply (last_settled_attempt_wins demo_caps scanned_pdf docx_beta world0
           [0] [1; 0]).
  - reflexivity.
  - reflexivity.
  - intros H. vm_compute in H. discriminate.
  - vm_compute. reflexivity.
Defined.

(** ** Examples *)

Example split_ws_empty : split_ws (lit "") = [lit ""].
Proof. reflexivity. Qed.

Example split_ws_words : split_ws (lit "ab  c") = [lit "ab"; lit "c"].
Proof. reflexivity. Qed.

Example split_ws_edges : split_ws (lit " a ") = [lit ""; lit "a"; lit ""].
Proof. reflexivity. Qed.

Example trim_edges : trim (lit "  a b  ") = lit "a b".
Proof. reflexivity. Qed.

Example word_count_three : word_count (lit " one two  three ") = 3.
Proof. reflexivity. Qed.

(** 49 words on one page: scanned; 50 words: not scanned. *)
Example heuristic_threshold :
  isScannedHeuristic 1 (join (lit " ") (repeat (lit "w") 49)) = true /\
  isScannedHeuristic 1 (join (lit " ") (repeat (lit "w") 50)) = false /\
  isScannedHeuristic 0 [] = false.
Proof. repeat split; vm_compute; reflexivity. Qed.

(** A PDF of 50 pages with one word each is used as it is read: no call of
    the OCR path. *)
Example text_pdf_not_scanned :
  forallb (fun c => negb (is_ocr_call c))
    (calls (snd (handleFileChange demo_caps text_pdf world0))) = true /\
  parsingError (ui (snd (handleFileChange demo_caps text_pdf world0))) = None /\
  word_count (userCvText (ui (snd (handleFileChange demo_caps text_pdf world0))))
    = 50.
Proof. repeat split; vm_compute; reflexivity. Qed.

(** A scanned PDF takes the text of the OCR. *)
Example scanned_pdf_ocr :
  userCvText (ui (snd (handleFileChange demo_caps scanned_pdf world0)))
    = lit "Jane Doe" /\
  List.length (filter is_generation_call
                 (calls (snd (handleFileChange demo_caps scanned_pdf world0)))) = 1.
Proof. split; vm_compute; reflexivity. Qed.

(** Without a 2D context no page is rasterized: the attempt fails with the
    generic message and no generation call is made. *)
Example no_context_no_images :
  let caps := demo_caps_with (fun _ => false) (Returned (Some (lit "x"))) [] in
  fst (performOcrOnPdf caps scanned_pdf world0) = Threw (new_Error msg_no_images) /\
  filter is_generation_call (calls (snd (performOcrOnPdf caps scanned_pdf world0)))
    = [] /\
  parsingError (ui (snd (handleFileChange caps scanned_pdf world0)))
    = Some msg_generic_read.
Proof. cbv zeta. repeat split; vm_compute; reflexivity. Qed.

Example json_parse_examples :
  Json.parse (lit " [1, 2.5e-3, true, null, []] ")
    = Returned (JArray [JNumber (lit "1"); JNumber (lit "2.5e-3"); JBool true;
                        JNull; JArray []]) /\
  (exists e, Json.parse (lit "{} x") = Threw e /\ instanceof_SyntaxError e = true) /\
  (exists e, Json.parse (lit "") = Threw e /\ instanceof_SyntaxError e = true).
Proof.
  split; [vm_compute; reflexivity|].
  split; eexists; split; vm_compute; reflexivity.
Qed.

(** * More properties of the code *)

(** ** The file name of the saved PDF *)

Lemma split_ws_from_not_nil (s cur : jsstring) (in_sep : bool) :
  split_ws_from cur in_sep s <> [].
Proof.
  revert cur in_sep. induction s as [|c r IH]; intros cur in_sep; simpl.
  - discriminate.
  - destruct (isWhiteSpace c); [destruct in_sep|]; try apply IH. discriminate.
Qed.

Lemma join_cons (sep x : jsstring) (rest : list jsstring) :
  rest <> [] -> join sep (x :: rest) = x ++ sep ++ join sep rest.
Proof. destruct rest; [contradiction | reflexivity]. Qed.

Lemma join_split_ws_from (sep s cur : jsstring) (in_sep : bool) :
  join sep (split_ws_from cur in_sep s) = rev cur ++ replace_ws_runs sep in_sep s.
Proof.
  revert cur in_sep. induction s as [|c r IH]; intros cur in_sep.
  - simpl. now rewrite app_nil_r.
  - cbn [split_ws_from replace_ws_runs]. destruct (isWhiteSpace c).
    + destruct in_sep; [apply IH|].
      rewrite join_cons by apply split_ws_from_not_nil.
      rewrite IH. reflexivity.
    + rewrite IH. simpl. now rewrite <- app_assoc.
Qed.

Lemma replace_ws_runs_visible (by_ s : jsstring) (in_run : bool) :
  Forall (fun c => isWhiteSpace c = false) by_ ->
  Forall (fun c => isWhiteSpace c = false) (replace_ws_runs by_ in_run s).
Proof.
  intros Hby. revert in_run. induction s as [|c r IH]; intros in_run; simpl.
  - constructor.
  - destruct (isWhiteSpace c) eqn:Hc.
    + destruct in_run; [apply IH|]. apply Forall_app. split; [assumption|apply IH].
    + constructor; [assumption|apply IH].
Qed.

(** X1. The file name [handleSaveAsPdf] gives the PDF is the full name with
    every run of white space replaced by one underscore, followed by
    [_CV.pdf]: it is the pieces of [fullName.split(/\s+/)] joined by
    underscores (so white space at either end of the name gives an
    underscore there), and it has no white space character left. *)
Theorem pdfFileName_no_white_space (fullName : jsstring) :
  pdfFileName fullName = join (lit "_") (split_ws fullName) ++ lit "_CV.pdf" /\
  Forall (fun c => isWhiteSpace c = false) (pdfFileName fullName).
Proof.
  unfold pdfFileName, split_ws. split.
  - now rewrite join_split_ws_from.
  - apply Forall_app. split.
    + apply replace_ws_runs_visible. repeat constructor.
    + vm_compute. repeat constructor.
Qed.

(** ** [isFormValid] *)

Lemma forallb_existsb_negb {A} (f : A -> bool) (l : list A) :
  forallb f l = negb (existsb (fun x => negb (f x)) l).
Proof.
  induction l as [|x l IH]; simpl; [reflexivity|].
  rewrite IH. now destruct (f x).
Qed.

Lemma trim_eqb_nil (t : jsstring) :
  negb (JsString.eqb (trim t) []) = hasVisibleChar t.
Proof.
  unfold hasVisibleChar.
  destruct (JsString.eqb (trim t) []) eqn:He.
  - apply eqb_eq, trim_nil in He. rewrite forallb_existsb_negb in He.
    now destruct (existsb _ t).
  - destruct (existsb (fun c => negb (isWhiteSpace c)) t) eqn:Hx; [reflexivity|].
    assert (Hall : forallb isWhiteSpace t = true)
      by (rewrite forallb_existsb_negb, Hx; reflexivity).
    apply trim_nil in Hall. rewrite Hall in He. discriminate.
Qed.

(** X2. The form is valid exactly when the CV text and the job description
    each have a character that is not white space. *)
Theorem isFormValid_spec (s : AppState) :
  isFormValid s = hasVisibleChar (userCvText s)
                  && hasVisibleChar (jobDescriptionText s).
Proof.
  unfold isFormValid. now rewrite !trim_eqb_nil.
Qed.

(** ** The CV optimization requester *)

Lemma Json_parse_throws_SyntaxError (text : jsstring) (e : JsError) :
  Json.parse text = Threw e -> instanceof_SyntaxError e = true.
Proof.
  unfold Json.parse. intros Hp.
  destruct (Json.parse_value _ _) as [[v r]|];
    [destruct (Json.skip_ws r)|]; try discriminate;
    injection Hp as <-; reflexivity.
Qed.

(** The error [optimizeCvWithGemini] throws for an error caught. *)
Lemma optimizeCvWithGemini_run
  (caps : Capabilities) (cv jd : jsstring) (w : World) :
  optimizeCvWithGemini caps cv jd w =
  (match ai_generateContent caps (optimizeRequest cv jd) with
   | Returned (Some text) =>
       match Json.parse (trim text) with
       | Returned v => Returned v
       | Threw _ => Threw (new_Error msg_invalid_json)
       end
   | Returned None => Threw (new_Error msg_optimize_failed)
   | Threw e =>
       Threw (if instanceof_SyntaxError e then new_Error msg_invalid_json
              else if instanceof_Error e
                      && includes (message e) (lit "API key not valid")
              then new_Error msg_invalid_api_key
              else new_Error msg_optimize_failed)
   end,
   mkWorld (ui w) (calls w ++ [CallGenerateContent (optimizeRequest cv jd)])).
Proof.
  unfold optimizeCvWithGemini.
  cbv beta iota zeta delta [bind ret call throw try_catch].
  destruct (ai_generateContent caps (optimizeRequest cv jd)) as [[text|]|e].
  - destruct (Json.parse (trim text)) as [v|e] eqn:Hp; [reflexivity|].
    now rewrite (Json_parse_throws_SyntaxError _ _ Hp).
  - reflexivity.
  - destruct (instanceof_SyntaxError e); [reflexivity|].
    destruct (instanceof_Error e && includes (message e) (lit "API key not valid"));
      reflexivity.
Qed.


(** X3. [optimizeCvWithGemini] makes exactly one generation call and writes
    no state; a value it returns is what [JSON.parse] gives for the trimmed
    text of the response, and an error it throws is one of its three own
    errors (invalid JSON, invalid API key, API error), never the error of
    the service itself.  A response without text is reported as an API
    error. *)
Theorem optimizeCv_one_call_three_errors
  (caps : Capabilities) (cv jd : jsstring) (w : World) :
  let r := optimizeCvWithGemini caps cv jd w in
  new_calls w (snd r) = [CallGenerateContent (optimizeRequest cv jd)] /\
  ui (snd r) = ui w /\
  match fst r with
  | Returned v =>
      exists text,
        ai_generateContent caps (optimizeRequest cv jd) = Returned (Some text) /\
        Json.parse (trim text) = Returned v
  | Threw e =>
      e = new_Error msg_invalid_json \/
      e = new_Error msg_invalid_api_key \/
      e = new_Error msg_optimize_failed
  end /\
  match ai_generateContent caps (optimizeRequest cv jd) with
  | Returned None => fst r = Threw (new_Error msg_optimize_failed)
  | _ => True
  end.
Proof.
  cbv zeta. rewrite optimizeCvWithGemini_run. cbn [fst snd ui].
  split; [now apply new_calls_app|]. split; [reflexivity|].
  destruct (ai_generateContent caps (optimizeRequest cv jd)) as [[text|]|e].
  - split; [|exact I].
    destruct (Json.parse (trim text)) as [v|e] eqn:Hp; [|now left].
    now exists text.
  - split; [|reflexivity]. now right; right.
  - split; [|exact I].
    destruct (instanceof_SyntaxError e); [now left|].
    destruct (instanceof_Error e && includes (message e) (lit "API key not valid"));
      [now right; left | now right; right].
Qed.





(** ** [handleOptimize] *)

(** X5. [handleOptimize] does nothing at all (no write, no call) when the
    CV text or the job description has no character other than white space,
    or while a file is being parsed or scanned. *)
Theorem handleOptimize_guard (caps : Capabilities) (w : World) :
  hasVisibleChar (userCvText (ui w)) = false \/
  hasVisibleChar (jobDescriptionText (ui w)) = false \/
  isParsing (ui w) = true \/ isScanning (ui w) = true ->
  handleOptimize caps w = (Returned tt, w).
Proof.
  intros H. unfold handleOptimize, bind, get_ui.
  assert (Hg : negb (isFormValid (ui w)) || isParsing (ui w) || isScanning (ui w)
               = true).
  { unfold isFormValid. rewrite !trim_eqb_nil.
    destruct H as [-> | [-> | [-> | ->]]];
      rewrite ?andb_false_r, ?orb_true_r; reflexivity. }
  rewrite Hg. reflexivity.
Qed.




(** ** [handleFileChange]: what an attempt leaves *)



(** The calls of an attempt: those of [parseFile] and then, for a PDF
    classified as scanned, those of [performOcrOnPdf]. *)
Lemma handleFileChange_calls (caps : Capabilities) (file : File) (w : World) :
  array_includes acceptedTypes (type file) = true ->
  new_calls w (snd (handleFileChange caps file w)) =
  new_calls w (snd (parseFile caps file w)) ++
  match fst (parseFile caps file w) with
  | Returned (_, true) =>
      if JsString.eqb (type file) mime_pdf
      then new_calls w (snd (performOcrOnPdf caps file w))
      else []
  | _ => []
  end.
Proof.
  intros Ha.
  destruct (parseFile_emits caps file) as (po & pl & _ & Hparse).
  destruct (performOcrOnPdf_emits caps file) as (oo & ol & _ & Hocr).
  rewrite (Hparse w), (Hocr w). cbn [fst snd].
  rewrite (@new_calls_app w (mkWorld (ui w) (calls w ++ pl)) pl) by reflexivity.
  rewrite (@new_calls_app w (mkWorld (ui w) (calls w ++ ol)) ol) by reflexivity.
  apply new_calls_app.
  unfold handleFileChange, scanBranch, acceptOcrText. rewrite Ha.
  destruct w as [s log]. run_m. rewrite !Hparse. cbn [fst snd].
  destruct po as [[initialText isScanned]|e]; run_m;
    [|now rewrite app_nil_r].
  destruct isScanned; run_m; [|now rewrite app_nil_r].
  destruct (JsString.eqb (type file) mime_pdf); [|now rewrite app_nil_r].
  rewrite !Hocr. cbn [fst snd]. run_m.
  destruct oo as [ocrText|e]; run_m; [|now rewrite app_assoc].
  destruct (ocrTextIsBlank ocrText); run_m; now rewrite app_assoc.
Qed.

(** X8. A document that [parseFile] reads and does not classify as scanned
    is used as it is read: the text of the component is the text returned,
    the file is kept, there is no error, and the attempt makes the calls of
    [parseFile] and no other: nothing is rendered, encoded or sent to the
    generation service. *)
Theorem text_native_ingestion
  (caps : Capabilities) (file : File) (w : World) (text : jsstring) :
  array_includes acceptedTypes (type file) = true ->
  fst (parseFile caps file w) = Returned (text, false) ->
  let r := handleFileChange caps file w in
  userCvText (ui (snd r)) = text /\
  userCvFile (ui (snd r)) = Some file /\
  parsingError (ui (snd r)) = None /\
  new_calls w (snd r) = new_calls w (snd (parseFile caps file w)) /\
  Forall (fun c => is_ocr_call c = false) (new_calls w (snd r)).
Proof.
  intros Ha Hp. cbv zeta.
  rewrite (handleFileChange_calls caps file w Ha).
  destruct (handleFileChange_accepted caps file w Ha) as [_ ->].
  rewrite Hp. cbn. rewrite app_nil_r. repeat split.
  apply emits_new_calls, parseFile_emits.
Qed.

(** X9. For a PDF classified as scanned whose OCR returns a text that is not
    blank, the text of the component is the OCR text, whatever text was read
    from the PDF itself; the file is kept and there is no error.  The attempt
    makes the calls of [parseFile] and then those of [performOcrOnPdf], which
    reads and opens the document a second time. *)
Theorem scanned_ingestion
  (caps : Capabilities) (file : File) (w : World)
  (initialText ocrText : jsstring) :
  type file = mime_pdf ->
  fst (parseFile caps file w) = Returned (initialText, true) ->
  fst (performOcrOnPdf caps file w) = Returned (Some ocrText) ->
  hasVisibleChar ocrText = true ->
  let r := handleFileChange caps file w in
  userCvText (ui (snd r)) = ocrText /\
  userCvFile (ui (snd r)) = Some file /\
  parsingError (ui (snd r)) = None /\
  new_calls w (snd r)
    = new_calls w (snd (parseFile caps file w))
      ++ new_calls w (snd (performOcrOnPdf caps file w)).
Proof.
  intros Ht Hp Ho Hv. cbv zeta.
  assert (Ha : array_includes acceptedTypes (type file) = true)
    by (rewrite Ht; apply accepted_pdf).
  rewrite (handleFileChange_calls caps file w Ha).
  destruct (handleFileChange_accepted caps file w Ha) as [_ ->].
  rewrite Hp, Ho. unfold ingestion. rewrite Ht, eqb_refl. cbn [andb].
  assert (Hb : ocrTextIsBlank (Some ocrText) = false).
  { destruct (ocrTextIsBlank (Some ocrText)) eqn:Hb; [|reflexivity].
    apply ocrTextIsBlank_spec in Hb as [Hb | (t & Ht' & Hall)]; [discriminate|].
    injection Ht' as <-. rewrite forallb_existsb_negb in Hall.
    unfold hasVisibleChar in Hv. rewrite Hv in Hall. discriminate. }
  rewrite Hb. cbn. repeat split.
Qed.

(** ** [parseFile] on a PDF *)

Lemma for_each_app {A} (l1 l2 : list nat) (body : nat -> A -> M A) (acc : A)
  (w : World) :
  for_each (l1 ++ l2) body acc w =
  match for_each l1 body acc w with
  | (Returned a, w') => for_each l2 body a w'
  | (Threw e, w') => (Threw e, w')
  end.
Proof.
  revert acc w. induction l1 as [|i l1 IH]; intros acc w; [reflexivity|].
  cbn [app for_each]. unfold bind.
  destruct (body i acc w) as [[a|e] w']; [apply IH | reflexivity].
Qed.

(** The page loop of [parseFile], when every page is fetched and read. *)
Lemma read_pages_loop (pdf : PDFDocument) (page : nat -> PDFPage)
  (items : nat -> list TextItem) (idx : list nat) :
  (forall i, In i idx ->
     getPage pdf i = Returned (page i) /\
     getTextContent (page i) = Returned (items i)) ->
  forall acc w,
    for_each idx
      (fun i textContent =>
         p <- call (CallGetPage i) (getPage pdf i) ;;
         text <- call (CallGetTextContent i) (getTextContent p) ;;
         ret (textContent ++ join (lit " ") (map item_str text) ++ LF))
      acc w =
    (Returned (acc ++ List.concat (map (fun i => pageLine (items i)) idx)),
     mkWorld (ui w)
       (calls w ++ flat_map (fun i => [CallGetPage i; CallGetTextContent i]) idx)).
Proof.
  induction idx as [|i idx IH]; intros Hok acc [s log].
  - simpl. unfold ret. now rewrite !app_nil_r.
  - destruct (Hok i (or_introl eq_refl)) as [Hpage Htext].
    cbn [for_each]. unfold bind at 1.
    cbv beta iota zeta delta [bind ret call ui calls].
    rewrite Hpage, Htext.
    rewrite IH by (intros j Hj; apply Hok; now right).
    cbn [ui calls map List.concat flat_map]. unfold pageLine.
    rewrite <- !app_assoc. cbn [app]. reflexivity.
Qed.

Lemma fetched_read_calls (idx : list nat) :
  fetched_pages (flat_map (fun i => [CallGetPage i; CallGetTextContent i]) idx)
  = idx.
Proof.
  unfold fetched_pages. induction idx as [|i idx IH]; simpl; [reflexivity|].
  now rewrite IH.
Qed.

(** [parseFile] on a PDF that opens and whose pages are fetched and read. *)
Lemma parseFile_pdf_run
  (caps : Capabilities) (file : File) (buf : ArrayBuffer) (pdf : PDFDocument)
  (page : nat -> PDFPage) (items : nat -> list TextItem) (w : World) :
  type file = mime_pdf ->
  arrayBuffer file = Returned buf ->
  pdfjs_getDocument caps buf = Returned pdf ->
  (forall i, 1 <= i <= numPages pdf ->
     getPage pdf i = Returned (page i) /\
     getTextContent (page i) = Returned (items i)) ->
  let text := List.concat (map (fun i => pageLine (items i)) (seq 1 (numPages pdf))) in
  parseFile caps file w =
  (Returned (text, isScannedHeuristic (numPages pdf) text),
   mkWorld (ui w)
     (calls w ++ [CallArrayBuffer; CallGetDocument buf]
        ++ flat_map (fun i => [CallGetPage i; CallGetTextContent i])
             (seq 1 (numPages pdf)))).
Proof.
  intros Ht Hb Hp Hok. cbv zeta.
  unfold parseFile. rewrite Ht, eqb_refl.
  unfold bind at 1. unfold call at 1. rewrite Hb.
  unfold bind at 1. unfold call at 1. rewrite Hp.
  unfold bind at 1.
  rewrite (@read_pages_loop pdf page items)
    by (intros i Hi; apply Hok; apply in_seq in Hi; lia).
  cbn [ui calls app ret]. rewrite <- !app_assoc. reflexivity.
Qed.

(** X10. For a PDF that opens and all of whose pages are fetched and read,
    [parseFile] fetches every page, 1 to the page count, in order and with no
    cap; the text it returns is, page after page, the items of the page
    joined by a space and followed by a line feed; the verdict is that of the
    heuristic on this text; and no state is written. *)
Theorem parseFile_reads_every_page
  (caps : Capabilities) (file : File) (buf : ArrayBuffer) (pdf : PDFDocument)
  (page : nat -> PDFPage) (items : nat -> list TextItem) (w : World) :
  type file = mime_pdf ->
  arrayBuffer file = Returned buf ->
  pdfjs_getDocument caps buf = Returned pdf ->
  (forall i, 1 <= i <= numPages pdf ->
     getPage pdf i = Returned (page i) /\
     getTextContent (page i) = Returned (items i)) ->
  let text := List.concat (map (fun i => pageLine (items i)) (seq 1 (numPages pdf))) in
  let r := parseFile caps file w in
  fst r = Returned (text, isScannedHeuristic (numPages pdf) text) /\
  fetched_pages (new_calls w (snd r)) = seq 1 (numPages pdf) /\
  ui (snd r) = ui w.
Proof.
  intros Ht Hb Hp Hok. cbv zeta.
  rewrite (parseFile_pdf_run caps file buf pdf page items w Ht Hb Hp Hok).
  cbn [fst snd ui].
  split; [reflexivity|]. split; [|reflexivity].
  erewrite new_calls_app; [|reflexivity].
  unfold fetched_pages. rewrite flat_map_app.
  fold (fetched_pages (flat_map (fun i => [CallGetPage i; CallGetTextContent i])
                         (seq 1 (numPages pdf)))).
  now rewrite fetched_read_calls.
Qed.

(** The page loop of [parseFile], when a page cannot be fetched or read. *)
Lemma read_pages_fails (pdf : PDFDocument) (page : nat -> PDFPage)
  (items : nat -> list TextItem) (pre rest : list nat) (k : nat) (e : JsError) :
  (forall i, In i pre ->
     getPage pdf i = Returned (page i) /\
     getTextContent (page i) = Returned (items i)) ->
  (getPage pdf k = Threw e \/
   exists p, getPage pdf k = Returned p /\ getTextContent p = Threw e) ->
  forall acc w,
  exists l,
    for_each (pre ++ k :: rest)
      (fun i textContent =>
         p <- call (CallGetPage i) (getPage pdf i) ;;
         text <- call (CallGetTextContent i) (getTextContent p) ;;
         ret (textContent ++ join (lit " ") (map item_str text) ++ LF))
      acc w = (Threw e, mkWorld (ui w) (calls w ++ l)) /\
    fetched_pages l = pre ++ [k].
Proof.
  intros Hok Hk acc w.
  rewrite for_each_app, (@read_pages_loop pdf page items pre Hok).
  cbn [for_each]. unfold bind at 1.
  cbv beta iota zeta delta [bind ret call ui calls].
  destruct Hk as [Hk | (p & Hk & Hp)]; rewrite Hk; [|rewrite Hp].
  - exists (flat_map (fun i => [CallGetPage i; CallGetTextContent i]) pre
            ++ [CallGetPage k]).
    split; [now rewrite app_assoc|].
    unfold fetched_pages. rewrite flat_map_app.
    fold (fetched_pages (flat_map (fun i => [CallGetPage i; CallGetTextContent i]) pre)).
    now rewrite fetched_read_calls.
  - exists (flat_map (fun i => [CallGetPage i; CallGetTextContent i]) pre
            ++ [CallGetPage k; CallGetTextContent k]).
    split; [now rewrite <- !app_assoc|].
    unfold fetched_pages. rewrite flat_map_app.
    fold (fetched_pages (flat_map (fun i => [CallGetPage i; CallGetTextContent i]) pre)).
    now rewrite fetched_read_calls.
Qed.

(** X11. When page [k] of a PDF cannot be fetched or read, the pages before
    it having been read, [parseFile] throws that error at once: the pages 1
    to [k] are fetched and no page after them, and nothing of the text read
    so far survives: the attempt of [handleFileChange] ends with the empty
    text, no file and the message for that error. *)
Theorem parseFile_stops_at_failing_page
  (caps : Capabilities) (file : File) (buf : ArrayBuffer) (pdf : PDFDocument)
  (page : nat -> PDFPage) (items : nat -> list TextItem) (k : nat)
  (e : JsError) (w : World) :
  type file = mime_pdf ->
  arrayBuffer file = Returned buf ->
  pdfjs_getDocument caps buf = Returned pdf ->
  1 <= k <= numPages pdf ->
  (forall i, 1 <= i < k ->
     getPage pdf i = Returned (page i) /\
     getTextContent (page i) = Returned (items i)) ->
  (getPage pdf k = Threw e \/
   exists p, getPage pdf k = Returned p /\ getTextContent p = Threw e) ->
  fst (parseFile caps file w) = Threw e /\
  fetched_pages (new_calls w (snd (parseFile caps file w))) = seq 1 k /\
  userCvText (ui (snd (handleFileChange caps file w))) = [] /\
  userCvFile (ui (snd (handleFileChange caps file w))) = None /\
  parsingError (ui (snd (handleFileChange caps file w)))
    = Some (parsingErrorMessage file e).
Proof.
  intros Ht Hb Hp Hk Hok Hfail.
  assert (Hrun : exists l,
            parseFile caps file w = (Threw e, mkWorld (ui w) (calls w ++ l)) /\
            fetched_pages l = seq 1 k).
  { assert (Hseq : seq 1 (numPages pdf)
                   = seq 1 (k - 1) ++ k :: seq (S k) (numPages pdf - k)).
    { replace (numPages pdf) with ((k - 1) + S (numPages pdf - k)) at 1 by lia.
      rewrite seq_app. replace (1 + (k - 1)) with k by lia. reflexivity. }
    destruct (@read_pages_fails pdf page items (seq 1 (k - 1))
                (seq (S k) (numPages pdf - k)) k e) with
      (acc := @nil code_unit)
      (w := mkWorld (ui w) ((calls w ++ [CallArrayBuffer]) ++ [CallGetDocument buf]))
      as (l & Hl & Hf).
    - intros i Hi. apply Hok. apply in_seq in Hi. lia.
    - exact Hfail.
    - exists ([CallArrayBuffer; CallGetDocument buf] ++ l). split.
      + unfold parseFile. rewrite Ht, eqb_refl.
        unfold bind at 1. unfold call at 1. rewrite Hb.
        unfold bind at 1. unfold call at 1. rewrite Hp.
        unfold bind at 1. cbn [ui calls]. rewrite Hseq, Hl. cbn [ui calls].
        rewrite <- !app_assoc. reflexivity.
      + unfold fetched_pages in *. rewrite flat_map_app, Hf. cbn [flat_map app].
        replace k with ((k - 1) + 1) at 2 3 by lia.
        rewrite seq_app. replace (1 + (k - 1)) with (k - 1 + 1) by lia.
        reflexivity. }
  destruct Hrun as (l & Hrun & Hf).
  assert (Ha : array_includes acceptedTypes (type file) = true)
    by (rewrite Ht; apply accepted_pdf).
  destruct (handleFileChange_accepted caps file w Ha) as [_ ->].
  rewrite Hrun. cbn [fst snd ingestion settle_state userCvText userCvFile
                     parsingError].
  rewrite (@new_calls_app w _ l) by reflexivity.
  repeat split. exact Hf.
Qed.

(** ** Edge cases of an attempt *)

(** X12. A PDF that opens with no page at all is not scanned (the heuristic
    asks for a page): the attempt ends as a success, with the file kept, no
    error and the empty text, no call of the OCR path is made, and the form
    is not valid afterwards. *)
Theorem empty_pdf_is_a_success_without_text
  (caps : Capabilities) (file : File) (buf : ArrayBuffer) (pdf : PDFDocument)
  (w : World) :
  type file = mime_pdf ->
  arrayBuffer file = Returned buf ->
  pdfjs_getDocument caps buf = Returned pdf ->
  numPages pdf = 0 ->
  let r := handleFileChange caps file w in
  userCvFile (ui (snd r)) = Some file /\
  userCvText (ui (snd r)) = [] /\
  parsingError (ui (snd r)) = None /\
  isFormValid (ui (snd r)) = false /\
  new_calls w (snd r) = [CallArrayBuffer; CallGetDocument buf].
Proof.
  intros Ht Hb Hp Hn. cbv zeta.
  assert (Ha : array_includes acceptedTypes (type file) = true)
    by (rewrite Ht; apply accepted_pdf).
  assert (Hrun : parseFile caps file w
                 = (Returned ([], false),
                    mkWorld (ui w)
                      (calls w ++ [CallArrayBuffer; CallGetDocument buf]))).
  { rewrite (parseFile_pdf_run caps file buf pdf
               (fun _ => mkPage (Returned []) (fun _ => Returned []))
               (fun _ => []) w Ht Hb Hp)
      by (intros i Hi; lia).
    rewrite Hn. cbn [seq map List.concat flat_map app]. reflexivity. }
  rewrite (handleFileChange_calls caps file w Ha).
  destruct (handleFileChange_accepted caps file w Ha) as [_ ->].
  rewrite Hrun. cbn [fst snd ingestion andb settle_state prologue_state
                     userCvFile userCvText parsingError].
  rewrite app_nil_r. erewrite new_calls_app; [|reflexivity].
  repeat split.
Qed.

Lemma parseFile_pdf_open_failure
  (caps : Capabilities) (file : File) (buf : ArrayBuffer) (e : JsError)
  (w : World) :
  type file = mime_pdf ->
  arrayBuffer file = Returned buf ->
  pdfjs_getDocument caps buf = Threw e ->
  parseFile caps file w
  = (Threw e, mkWorld (ui w) (calls w ++ [CallArrayBuffer; CallGetDocument buf])).
Proof.
  intros Ht Hb Hp. unfold parseFile. rewrite Ht, eqb_refl.
  cbv beta iota zeta delta [bind call ui calls]. rewrite Hb, Hp.
  now rewrite <- app_assoc.
Qed.

(** X13. When the decoder refuses to open a PDF, no page is fetched and no
    OCR is tried; the attempt ends without text or file, and (for an error
    whose message holds neither of the two phrases of the OCR path) the
    message is the one for a password-protected PDF when the error is a
    [PasswordException], and the one for an invalid or corrupted PDF when it
    is an [InvalidPDFException] or a [MissingPDFException]. *)
Theorem pdf_open_failure_is_classified
  (caps : Capabilities) (file : File) (buf : ArrayBuffer) (e : JsError)
  (w : World) :
  type file = mime_pdf ->
  arrayBuffer file = Returned buf ->
  pdfjs_getDocument caps buf = Threw e ->
  includes (message e) (lit "AI OCR returned no text.") = false ->
  includes (message e) (lit "Failed to extract text") = false ->
  let r := handleFileChange caps file w in
  new_calls w (snd r) = [CallArrayBuffer; CallGetDocument buf] /\
  userCvText (ui (snd r)) = [] /\
  userCvFile (ui (snd r)) = None /\
  (name e = lit "PasswordException" ->
   parsingError (ui (snd r)) = Some msg_password) /\
  (name e = lit "InvalidPDFException" \/ name e = lit "MissingPDFException" ->
   parsingError (ui (snd r)) = Some msg_corrupt_pdf).
Proof.
  intros Ht Hb Hp H1 H2. cbv zeta.
  assert (Ha : array_includes acceptedTypes (type file) = true)
    by (rewrite Ht; apply accepted_pdf).
  rewrite (handleFileChange_calls caps file w Ha).
  destruct (handleFileChange_accepted caps file w Ha) as [_ ->].
  rewrite (parseFile_pdf_open_failure caps file buf e w Ht Hb Hp).
  cbn [fst snd ingestion settle_state userCvFile userCvText parsingError].
  rewrite app_nil_r. erewrite new_calls_app; [|reflexivity].
  unfold parsingErrorMessage. rewrite H1, H2.
  repeat split.
  - intros ->. reflexivity.
  - intros [-> | ->]; reflexivity.
Qed.

(** X14. When a DOCX cannot be read (the file cannot be loaded, or the
    reader throws) with an [Error] that none of the earlier tests of the
    [catch] block takes, the attempt ends without text or file and with the
    message for a DOCX that could not be read; no call of the OCR path is
    made. *)
Theorem docx_read_failure_message
  (caps : Capabilities) (file : File) (e : JsError) (w : World) :
  type file = mime_docx ->
  fst (parseFile caps file w) = Threw e ->
  instanceof_Error e = true ->
  includes (message e) (lit "AI OCR returned no text.") = false ->
  includes (message e) (lit "Failed to extract text") = false ->
  name e <> lit "PasswordException" ->
  name e <> lit "InvalidPDFException" ->
  name e <> lit "MissingPDFException" ->
  let r := handleFileChange caps file w in
  parsingError (ui (snd r)) = Some msg_docx_read /\
  userCvText (ui (snd r)) = [] /\
  userCvFile (ui (snd r)) = None /\
  Forall (fun c => is_ocr_call c = false) (new_calls w (snd r)).
Proof.
  intros Ht Hp He H1 H2 Hn1 Hn2 Hn3. cbv zeta.
  assert (Ha : array_includes acceptedTypes (type file) = true)
    by (rewrite Ht; apply accepted_docx).
  rewrite (handleFileChange_calls caps file w Ha).
  destruct (handleFileChange_accepted caps file w Ha) as [_ ->].
  rewrite Hp. cbn [ingestion settle_state userCvFile userCvText parsingError].
  rewrite app_nil_r.
  split; [|repeat split; apply emits_new_calls, parseFile_emits].
  unfold parsingErrorMessage. rewrite H1, H2, He.
  assert (Hb : forall s, name e <> s -> JsString.eqb (name e) s = false).
  { intros s Hs. destruct (JsString.eqb (name e) s) eqn:Hq; [|reflexivity].
    apply eqb_eq in Hq. contradiction. }
  rewrite (Hb _ Hn1), (Hb _ Hn2), (Hb _ Hn3), Ht. cbn [orb].
  replace (includes mime_docx (lit "wordprocessingml")) with true
    by (vm_compute; reflexivity).
  reflexivity.
Qed.

(** X15. After an attempt that failed, and after [handleFileClear],
    [handleOptimize] does nothing: no call is made and the state stays as it
    is, whatever the job description. *)
Theorem no_optimize_after_failure_or_clear
  (caps : Capabilities) (file : File) (w : World) :
  array_includes acceptedTypes (type file) = true ->
  (parsingError (ui (snd (handleFileChange caps file w))) <> None ->
   handleOptimize caps (snd (handleFileChange caps file w))
   = (Returned tt, snd (handleFileChange caps file w))) /\
  handleOptimize caps (snd (handleFileClear w))
  = (Returned tt, snd (handleFileClear w)).
Proof.
  intros Ha.
  assert (Hguard : forall w', userCvText (ui w') = [] ->
            handleOptimize caps w' = (Returned tt, w')).
  { intros w' Hw. unfold handleOptimize, bind, get_ui.
    unfold isFormValid. rewrite Hw. reflexivity. }
  split.
  - intros Herr. apply Hguard.
    destruct (handleFileChange_accepted caps file w Ha) as [_ Hui].
    rewrite Hui in *.
    destruct (ingestion file _ _); [now contradiction Herr | reflexivity].
  - apply Hguard. destruct w as [s log]. reflexivity.
Qed.

(** ** The OCR path, whatever fails *)

Lemma rasterizePage_any (caps : Capabilities) (pdf : PDFDocument) (i : nat)
  (acc : list (option jsstring)) (w : World) :
  exists o l,
    rasterizePage caps pdf i acc w = (o, mkWorld (ui w) (calls w ++ l)) /\
    Forall (fun c => is_generation_call c = false) l /\
    fetched_pages l = [i] /\
    (forall a, o = Returned a -> List.length a <= S (List.length acc)).
Proof.
  unfold rasterizePage.
  cbv beta iota zeta delta [bind ret call ui calls].
  destruct (getPage pdf i) as [page|e].
  - destruct (canvas_getContext caps i).
    + destruct (render page ocrScale) as [bitmap|e].
      * eexists _, _. split; [rewrite <- !app_assoc; reflexivity|].
        split; [repeat constructor|]. split; [reflexivity|].
        intros a H. injection H as <-. rewrite length_app. simpl. lia.
      * eexists _, _. split; [rewrite <- !app_assoc; reflexivity|].
        split; [repeat constructor|]. split; [reflexivity|]. discriminate.
    + eexists _, _. split; [rewrite <- !app_assoc; reflexivity|].
      split; [repeat constructor|]. split; [reflexivity|].
      intros a H. injection H as <-. lia.
  - eexists _, [CallGetPage i]. split; [reflexivity|].
    split; [repeat constructor|]. split; [reflexivity|]. discriminate.
Qed.

Lemma rasterize_loop_any (caps : Capabilities) (pdf : PDFDocument)
  (idx : list nat) :
  forall acc w,
  exists o l,
    for_each idx (rasterizePage caps pdf) acc w
      = (o, mkWorld (ui w) (calls w ++ l)) /\
    Forall (fun c => is_generation_call c = false) l /\
    Forall (fun i => In i idx) (fetched_pages l) /\
    (forall a, o = Returned a ->
               List.length a <= List.length acc + List.length idx).
Proof.
  induction idx as [|i idx IH]; intros acc w.
  - exists (Returned acc), []. cbn [for_each]. unfold ret.
    rewrite app_nil_r. destruct w. repeat split; try constructor.
    intros a H. injection H as <-. lia.
  - cbn [for_each]. unfold bind.
    destruct (rasterizePage_any caps pdf i acc w) as (o1 & l1 & -> & Hg1 & Hf1 & Hlen1).
    destruct o1 as [a1|e].
    + destruct (IH a1 (mkWorld (ui w) (calls w ++ l1)))
        as (o & l & -> & Hg & Hf & Hlen).
      exists o, (l1 ++ l). cbn [ui calls]. rewrite <- app_assoc.
      split; [reflexivity|]. split; [now apply Forall_app|]. split.
      * unfold fetched_pages in *. rewrite flat_map_app, Hf1.
        constructor; [now left|].
        eapply Forall_impl; [|exact Hf]. intros j Hj. now right.
      * intros a Ha. specialize (Hlen a Ha). specialize (Hlen1 a1 eq_refl).
        simpl. lia.
    + exists (Threw e), l1. split; [reflexivity|]. split; [assumption|].
      split; [|discriminate].
      rewrite Hf1. constructor; [now left | constructor].
Qed.

Lemma fetched_pages_nogen (l : list Call) :
  Forall (fun c => is_generation_call c = false) l ->
  filter is_generation_call l = [].
Proof.
  induction 1 as [|c l Hc _ IH]; simpl; [reflexivity|]. now rewrite Hc.
Qed.

Lemma performOcrOnPdf_log (caps : Capabilities) (file : File) (w : World) :
  exists o l,
    performOcrOnPdf caps file w = (o, mkWorld (ui w) (calls w ++ l)) /\
    Forall (fun i => 1 <= i <= 5) (fetched_pages l) /\
    List.length (filter is_generation_call l) <= 1 /\
    Forall (fun c => forall request, c = CallGenerateContent request ->
              exists images,
                request = ocrRequest images /\
                1 <= List.length images <= 5) l.
Proof.
  unfold performOcrOnPdf.
  unfold bind at 1. unfold call at 1.
  destruct (arrayBuffer file) as [buf|e].
  2:{ exists (Threw e), [CallArrayBuffer]. split; [reflexivity|]. cbn.
      repeat split; repeat constructor. discriminate. }
  unfold bind at 1. unfold call at 1. cbn [ui calls].
  destruct (pdfjs_getDocument caps buf) as [pdf|e].
  2:{ exists (Threw e), [CallArrayBuffer; CallGetDocument buf].
      split; [now rewrite <- app_assoc|]. cbn.
      repeat split; repeat constructor; discriminate. }
  unfold bind at 1.
  destruct (rasterize_loop_any caps pdf (seq 1 (Nat.min (numPages pdf) ocrPageCap))
              [] (mkWorld (ui w) ((calls w ++ [CallArrayBuffer]) ++ [CallGetDocument buf])))
    as (o & l & -> & Hg & Hf & Hlen).
  cbn [ui calls].
  assert (Hpages : Forall (fun i => 1 <= i <= 5) (fetched_pages l)).
  { eapply Forall_impl; [|exact Hf]. intros i Hi. apply in_seq in Hi.
    unfold ocrPageCap in Hi. lia. }
  assert (Hnogen : Forall (fun c => forall request, c = CallGenerateContent request ->
            exists images,
              request = ocrRequest images /\
              1 <= List.length images <= 5) l).
  { eapply Forall_impl; [|exact Hg]. intros c Hc request ->. discriminate. }
  assert (Hbase : forall tl,
            fetched_pages ([CallArrayBuffer; CallGetDocument buf] ++ l ++ tl)
            = fetched_pages l ++ fetched_pages tl /\
            filter is_generation_call ([CallArrayBuffer; CallGetDocument buf] ++ l ++ tl)
            = filter is_generation_call tl).
  { intros tl. unfold fetched_pages. cbn [app flat_map filter is_generation_call].
    rewrite flat_map_app, filter_app, (fetched_pages_nogen l Hg). now split. }
  destruct o as [images|e].
  - specialize (Hlen images eq_refl). rewrite length_seq in Hlen.
    unfold ocrPageCap in Hlen. cbn [List.length] in Hlen.
    destruct images as [|img rest].
    + cbn [List.length Nat.eqb throw].
      exists (Threw (new_Error msg_no_images)),
             ([CallArrayBuffer; CallGetDocument buf] ++ l ++ []).
      split; [now rewrite app_nil_r, <- !app_assoc|].
      destruct (Hbase []) as [-> ->]. rewrite app_nil_r. cbn.
      split; [assumption|]. split; [lia|].
      repeat constructor; try discriminate. now rewrite app_nil_r.
    + cbn [List.length Nat.eqb].
      rewrite extractTextFromImagesWithGemini_run. cbn [ui calls].
      eexists _, ([CallArrayBuffer; CallGetDocument buf] ++ l
                  ++ [CallGenerateContent (ocrRequest (img :: rest))]).
      split; [now rewrite <- !app_assoc|].
      destruct (Hbase [CallGenerateContent (ocrRequest (img :: rest))]) as [-> ->].
      cbn. rewrite app_nil_r.
      split; [assumption|]. split; [lia|].
      repeat constructor; try discriminate.
      apply Forall_app. split; [assumption|].
      constructor; [|constructor].
      intros request Hr. injection Hr as <-.
      exists (img :: rest). split; [reflexivity|]. cbn [List.length] in *. lia.
  - exists (Threw e), ([CallArrayBuffer; CallGetDocument buf] ++ l ++ []).
    split; [now rewrite app_nil_r, <- !app_assoc|].
    destruct (Hbase []) as [-> ->]. rewrite app_nil_r. cbn.
    split; [assumption|]. split; [lia|].
    repeat constructor; try discriminate. now rewrite app_nil_r.
Qed.

(** X16. Whatever the capabilities do (a page that cannot be fetched, a
    render that throws, a canvas without a context), [performOcrOnPdf]
    never fetches a page whose number is not between 1 and 5, makes at most
    one generation call, and that call carries at least one and at most five
    images. *)
Theorem ocr_path_bounds (caps : Capabilities) (file : File) (w : World) :
  let log := new_calls w (snd (performOcrOnPdf caps file w)) in
  Forall (fun i => 1 <= i <= 5) (fetched_pages log) /\
  List.length (filter is_generation_call log) <= 1 /\
  Forall (fun c => forall request, c = CallGenerateContent request ->
            exists images,
              request = ocrRequest images /\
              1 <= List.length images <= 5) log.
Proof.
  cbv zeta.
  destruct (performOcrOnPdf_log caps file w) as (o & l & -> & H1 & H2 & H3).
  cbn [snd]. erewrite new_calls_app; [|reflexivity]. auto.
Qed.

(** ** The payload of a data URL *)

Lemma split_on_from_head (sep : code_unit) (s cur : jsstring) :
  exists p rest, split_on_from sep cur s = p :: rest.
Proof.
  revert cur. induction s as [|c r IH]; intros cur; simpl.
  - now eexists _, _.
  - destruct (c =? sep)%N; [now eexists _, _ | apply IH].
Qed.

Lemma split_on_from_pieces (sep : code_unit) (s cur : jsstring) :
  ~ In sep cur ->
  Forall (fun p => ~ In sep p) (split_on_from sep cur s).
Proof.
  revert cur. induction s as [|c r IH]; intros cur Hcur; simpl.
  - constructor; [|constructor]. now rewrite <- in_rev.
  - destruct (N.eqb_spec c sep) as [->|Hc].
    + constructor; [now rewrite <- in_rev|]. apply IH. intros [].
    + apply IH. intros [H|H]; [now apply Hc | now apply Hcur].
Qed.

Lemma split_on_from_second (sep : code_unit) (s cur : jsstring) :
  In sep s -> exists p, nth_error (split_on_from sep cur s) 1 = Some p.
Proof.
  revert cur. induction s as [|c r IH]; intros cur Hin; [destruct Hin|].
  simpl. destruct (N.eqb_spec c sep) as [->|Hc].
  - destruct (split_on_from_head sep r []) as (p & rest & ->). now exists p.
  - apply IH. destruct Hin as [H|H]; [now contradiction Hc | assumption].
Qed.

(** X17. [dataUrl.split(',')[1]], the image [performOcrOnPdf] keeps, is
    [undefined] exactly when the data URL has no comma; otherwise it is a
    part of the data URL without any comma (what stands between the first
    comma and the next one, or the end). *)
Theorem strip_data_url_prefix_edges (dataUrl : jsstring) :
  (strip_data_url_prefix dataUrl = None <-> ~ In 0x2C%N dataUrl) /\
  (forall payload,
     strip_data_url_prefix dataUrl = Some payload ->
     ~ In 0x2C%N payload /\
     exists pre post,
       ~ In 0x2C%N pre /\
       (dataUrl = pre ++ 0x2C%N :: payload \/
        dataUrl = pre ++ 0x2C%N :: payload ++ 0x2C%N :: post)).
Proof.
  unfold strip_data_url_prefix, split_on. split; [split|].
  - intros Hnone Hin.
    destruct (split_on_from_second 0x2C%N dataUrl [] Hin) as [p Hp].
    rewrite Hp in Hnone. discriminate.
  - intros Hn. now rewrite split_on_from_no_sep.
  - intros payload Hp. split.
    + pose proof (split_on_from_pieces 0x2C%N dataUrl [] (fun H => H)) as Hall.
      rewrite Forall_forall in Hall. apply Hall.
      eapply nth_error_In. exact Hp.
    + (* the first comma, and what follows it *)
      assert (Hfirst : forall s,
                In 0x2C%N s ->
                exists pre rest, s = pre ++ 0x2C%N :: rest /\ ~ In 0x2C%N pre).
      { induction s as [|c r IH]; intros Hin; [destruct Hin|].
        destruct (N.eq_dec c 0x2C%N) as [->|Hc].
        - exists [], r. split; [reflexivity|]. intros [].
        - destruct IH as (pre & rest & -> & Hpre);
            [destruct Hin; [now contradiction Hc | assumption]|].
          exists (c :: pre), rest. split; [reflexivity|].
          intros [H|H]; [now apply Hc | now apply Hpre]. }
      destruct (in_dec N.eq_dec 0x2C%N dataUrl) as [Hin|Hn].
      2:{ rewrite split_on_from_no_sep in Hp by assumption. discriminate. }
      destruct (Hfirst dataUrl Hin) as (pre & rest & -> & Hpre).
      rewrite split_on_from_first in Hp by assumption. cbn [nth_error] in Hp.
      exists pre.
      destruct (in_dec N.eq_dec 0x2C%N rest) as [Hin2|Hn2].
      * destruct (Hfirst rest Hin2) as (mid & post & -> & Hmid).
        rewrite split_on_from_first in Hp by assumption.
        cbn in Hp. injection Hp as <-.
        exists post. split; [assumption|]. now right.
      * rewrite split_on_from_no_sep in Hp by assumption.
        cbn in Hp. injection Hp as <-.
        exists []. split; [assumption|]. now left.
Qed.

(** ** One attempt, step by step *)

(** The state after a step of an attempt in flight. *)
Lemma resume_state (caps : Capabilities) (t : Suspended) (w : World) :
  reachable_attempt caps t ->
  let file := suspended_file t in
  let s := ui w in
  (exists w',
     handleFileChange_resume caps t w = (Returned (Some (AwaitingOcr file)), w') /\
     t = AwaitingParseFile file /\
     reachable_attempt caps (AwaitingOcr file) /\
     ui w' = mkState (userCvFile s) (userCvText s) (jobDescriptionText s)
               (optimizedCvData s) (isLoading s) (error s) (isCopied s)
               false true (parsingError s)) \/
  (exists w',
     handleFileChange_resume caps t w = (Returned None, w') /\
     ui w' = settle_state file s
               (ingestion file (fst (parseFile caps file world0))
                  (fst (performOcrOnPdf caps file world0)))).
Proof.
  intros [Ha Hr]. cbv zeta.
  destruct t as [file|file]; simpl suspended_file in *.
  - destruct (parseFile_emits caps file) as (po & pl & _ & Hparse).
    unfold handleFileChange_resume. rewrite !Hparse. simpl fst.
    destruct w as [s log].
    destruct po as [[initialText isScanned]|e].
    + unfold ingestion.
      destruct (isScanned && JsString.eqb (type file) mime_pdf) eqn:Hs.
      * left. apply andb_true_iff in Hs as [-> Hpdf]. apply eqb_eq in Hpdf.
        eexists. split; [reflexivity|]. run_m.
        repeat split; try assumption.
        exists initialText. now rewrite Hparse.
      * right. eexists. split; [reflexivity|]. run_m. reflexivity.
    + right. eexists. split; [reflexivity|]. run_m. reflexivity.
  - destruct Hr as [Ht [text Hp]]. rewrite Hp.
    destruct (performOcrOnPdf_emits caps file) as (oo & ol & _ & Hocr).
    right. unfold handleFileChange_resume, scanBranch, acceptOcrText.
    destruct w as [s log]. run_m. rewrite !Hocr. simpl fst.
    unfold ingestion. rewrite Ht, eqb_refl. simpl andb.
    destruct oo as [ocrText|e]; run_m.
    + destruct (ocrTextIsBlank ocrText); run_m;
        (eexists; split; reflexivity).
    + eexists; split; reflexivity.
Qed.

Lemma single_attempt_step (caps : Capabilities) (file : File) (k : nat)
  (c : Config) :
  single_attempt caps file c ->
  single_attempt caps file (dispatch caps (Resume k) c).
Proof.
  unfold single_attempt. cbv zeta. intros Hc.
  destruct c as [w fl]. cbn [inflight world] in *. unfold dispatch.
  cbn [inflight world].
  destruct fl as [|t [|t' fl]]; [| |contradiction].
  - destruct k; exact Hc.
  - destruct Hc as (Hf & Hr & Hfile & Htext & Herr & Hflags).
    destruct k as [|k]; cbn [nth_error].
    2:{ destruct k; cbn [nth_error inflight world];
          exact (conj Hf (conj Hr (conj Hfile (conj Htext (conj Herr Hflags))))). }
    destruct (resume_state caps t w Hr)
      as [(w' & -> & -> & Hr' & Hui) | (w' & -> & Hui)];
      cbn [replace_nth remove_nth inflight world]; rewrite Hui.
    + cbn [suspended_file] in *. subst file.
      cbn [userCvFile userCvText parsingError isParsing isScanning].
      repeat split; try assumption; apply Hr'.
    + assert (Ha : array_includes acceptedTypes (type file) = true)
        by (rewrite <- Hf; apply Hr).
      rewrite Hf in *. rewrite (alone_accepted caps file Ha).
      destruct (ingestion file _ _);
        cbn [settle_state prologue_state userCvFile userCvText parsingError
             isParsing isScanning];
        repeat split; assumption.
Qed.

Lemma single_attempt_run (caps : Capabilities) (file : File) (ks : list nat) :
  forall c,
    single_attempt caps file c ->
    single_attempt caps file (run caps (map Resume ks) c).
Proof.
  induction ks as [|k ks IH]; intros c Hc; [exact Hc|].
  cbn [map]. rewrite run_cons. apply IH. now apply single_attempt_step.
Qed.

Lemma single_attempt_selected (caps : Capabilities) (file : File) (w : World) :
  array_includes acceptedTypes (type file) = true ->
  single_attempt caps file (dispatch caps (SelectFile file) (mkConfig' w [])).
Proof.
  intros Ha. unfold single_attempt, dispatch, handleFileChange_start.
  cbn [world inflight]. rewrite Ha. destruct w as [s log]. run_m.
  cbn [world inflight app suspended_file userCvFile userCvText parsingError
       isParsing isScanning ui].
  repeat split. exact Ha.
Qed.



(** ** Clearing while an attempt is in flight *)

Lemma cleared_attempt_step (caps : Capabilities) (file : File) (k : nat)
  (c : Config) :
  cleared_attempt caps file c ->
  cleared_attempt caps file (dispatch caps (Resume k) c).
Proof.
  unfold cleared_attempt. cbv zeta. intros Hc.
  destruct c as [w fl]. cbn [inflight world] in *. unfold dispatch.
  cbn [inflight world].
  destruct fl as [|t [|t' fl]]; [| |contradiction].
  - destruct k; exact Hc.
  - destruct Hc as (Hf & Hr & Hfile & Htext & Herr).
    destruct k as [|k]; cbn [nth_error].
    2:{ destruct k; cbn [nth_error inflight world];
          exact (conj Hf (conj Hr (conj Hfile (conj Htext Herr)))). }
    destruct (resume_state caps t w Hr)
      as [(w' & -> & -> & Hr' & Hui) | (w' & -> & Hui)];
      cbn [replace_nth remove_nth inflight world]; rewrite Hui.
    + cbn [suspended_file] in *. subst file.
      cbn [userCvFile userCvText parsingError].
      repeat split; try assumption; apply Hr'.
    + assert (Ha : array_includes acceptedTypes (type file) = true)
        by (rewrite <- Hf; apply Hr).
      rewrite Hf in *. rewrite (alone_accepted caps file Ha).
      destruct (ingestion file _ _);
        cbn [settle_state prologue_state userCvFile userCvText parsingError];
        repeat split; assumption.
Qed.

Lemma cleared_attempt_run (caps : Capabilities) (file : File) (ks : list nat) :
  forall c,
    cleared_attempt caps file c ->
    cleared_attempt caps file (run caps (map Resume ks) c).
Proof.
  induction ks as [|k ks IH]; intros c Hc; [exact Hc|].
  cbn [map]. rewrite run_cons. apply IH. now apply cleared_attempt_step.
Qed.

(** X19. [handleFileClear] does not cancel an attempt in flight.  When the
    file is cleared while its attempt is in flight and the attempt then runs
    to its end, the attempt still writes its result: the text is the one the
    attempt gives when run alone, and so is the error, while no file is
    shown; after a successful attempt the component thus holds an extracted
    text without a selected file. *)
Theorem clear_does_not_cancel
  (caps : Capabilities) (file : File) (w : World) (ks0 ks : list nat) :
  array_includes acceptedTypes (type file) = true ->
  let cA := run caps (SelectFile file :: map Resume ks0) (mkConfig' w []) in
  inflight cA <> [] ->
  let c' := run caps (map Resume ks) (dispatch caps ClearFile cA) in
  inflight c' = [] ->
  userCvText (ui (world c')) = userCvText (alone caps file) /\
  parsingError (ui (world c')) = parsingError (alone caps file) /\
  userCvFile (ui (world c')) = None.
Proof.
  intros Ha cA Hflight c' Hdone.
  assert (HinvA : single_attempt caps file cA).
  { subst cA. rewrite run_cons.
    apply single_attempt_run, single_attempt_selected, Ha. }
  assert (Hcleared : cleared_attempt caps file (dispatch caps ClearFile cA)).
  { unfold single_attempt in HinvA. unfold cleared_attempt. cbv zeta in *.
    destruct cA as [[s log] fl]. cbn [inflight world] in *.
    unfold dispatch. cbn [inflight world].
    destruct fl as [|t [|t' fl]]; [contradiction| |contradiction].
    destruct HinvA as (Hf & Hr & _). run_m.
    exact (conj Hf (conj Hr (conj eq_refl (conj eq_refl eq_refl)))). }
  pose proof (cleared_attempt_run caps file ks _ Hcleared) as Hinv.
  fold c' in Hinv. unfold cleared_attempt in Hinv. cbv zeta in Hinv.
  rewrite Hdone in Hinv. destruct Hinv as (Hfile & Htext & Herr).
  repeat split; assumption.
Qed.

(** X20. The loading flags belong to the component, not to an attempt.
    When a DOCX is selected while another attempt is in flight and the DOCX
    is read first, both flags are lowered and the spinner is gone, although
    the older attempt is still in flight. *)
Theorem newer_docx_lowers_flags
  (caps : Capabilities) (fA fB : File) (w : World) :
  array_includes acceptedTypes (type fA) = true ->
  type fB = mime_docx ->
  let c := run caps [SelectFile fA; SelectFile fB; Resume 1] (mkConfig' w []) in
  inflight c = [AwaitingParseFile fA] /\
  isParsing (ui (world c)) = false /\
  isScanning (ui (world c)) = false /\
  forall loadingText, App_fileInput (ui (world c)) <> ViewLoading loadingText.
Proof.
  intros HA HtB. cbv zeta.
  assert (HB : array_includes acceptedTypes (type fB) = true)
    by (rewrite HtB; apply accepted_docx).
  rewrite !run_cons. unfold run. cbn [fold_left].
  set (c1 := dispatch caps (SelectFile fA) (mkConfig' w [])).
  destruct (select_accepted caps fA (mkConfig' w []) HA) as (Hfl1 & _).
  fold c1 in Hfl1. cbn [inflight app] in Hfl1.
  set (c2 := dispatch caps (SelectFile fB) c1).
  destruct (select_accepted caps fB c1 HB) as (Hfl2 & _).
  fold c2 in Hfl2. rewrite Hfl1 in Hfl2. cbn [app] in Hfl2.
  assert (Hr : reachable_attempt caps (AwaitingParseFile fB))
    by (split; [exact HB | exact I]).
  assert (Hstep : exists w',
            dispatch caps (Resume 1) c2 = mkConfig' w' [AwaitingParseFile fA] /\
            ui w' = settle_state fB (ui (world c2))
                      (ingestion fB (fst (parseFile caps fB world0))
                         (fst (performOcrOnPdf caps fB world0)))).
  { unfold dispatch. rewrite Hfl2. cbn [nth_error].
    destruct (resume_state caps (AwaitingParseFile fB) (world c2) Hr)
      as [(w' & _ & _ & Hr' & _) | (w' & -> & Hui)].
    - destruct Hr' as [_ [Hpdf _]]. cbn [suspended_file] in Hpdf.
      rewrite HtB in Hpdf. pose proof mime_docx_not_pdf as Hne.
      rewrite Hpdf, eqb_refl in Hne. discriminate.
    - exists w'. split; [reflexivity | exact Hui]. }
  destruct Hstep as (w' & -> & Hui). cbn [inflight world]. rewrite Hui.
  assert (Hflags : forall r s,
            isParsing (settle_state fB s r) = false /\
            isScanning (settle_state fB s r) = false)
    by (intros [|] s; split; reflexivity).
  destruct (Hflags (ingestion fB (fst (parseFile caps fB world0))
                      (fst (performOcrOnPdf caps fB world0)))
              (ui (world c2))) as [Hp Hs].
  repeat split; try assumption.
  intros loadingText. unfold App_fileInput, FileInput_view.
  rewrite Hp, Hs. cbn [orb].
  destruct (parsingError _) as [[|? ?]|]; try discriminate;
    match goal with |- context [match ?f with Some _ => _ | None => _ end] =>
      destruct f end; discriminate.
Qed.

(** ** Clicking and dropping *)

(** X21. A click on the drop zone opens the file picker exactly when the
    prompt to upload is shown.  While an attempt is in flight the click does
    nothing, but a drop is taken: [handleDrop] passes the first file dropped
    to [handleFileChange], and two attempts are then in flight. *)
Theorem drop_is_not_gated
  (caps : Capabilities) (fA fB : File) (others : list File) (w : World)
  (ks0 : list nat) :
  array_includes acceptedTypes (type fA) = true ->
  array_includes acceptedTypes (type fB) = true ->
  let cA := run caps (SelectFile fA :: map Resume ks0) (mkConfig' w []) in
  let s := ui (world cA) in
  inflight cA <> [] ->
  (forall file isLoading loadingText parsingError,
     FileInput_clickOpensPicker file isLoading parsingError = true <->
     FileInput_view file isLoading loadingText parsingError = ViewPrompt) /\
  FileInput_clickOpensPicker (userCvFile s) (isParsing s || isScanning s)
    (parsingError s) = false /\
  exists t,
    inflight cA = [t] /\
    inflight (FileInput_handleDrop caps (fB :: others) cA)
    = [t; AwaitingParseFile fB].
Proof.
  intros HA HB cA s Hflight. split; [|split].
  - intros file isLoading loadingText parsingError.
    unfold FileInput_clickOpensPicker, FileInput_view.
    destruct file, isLoading, parsingError as [[|c m]|]; cbn;
      split; (reflexivity || discriminate).
  - assert (Hinv : single_attempt caps fA cA).
    { subst cA. rewrite run_cons.
      apply single_attempt_run, single_attempt_selected, HA. }
    unfold single_attempt in Hinv. cbv zeta in Hinv. fold s in Hinv.
    destruct (inflight cA) as [|t [|t' fl]]; [contradiction| |contradiction].
    destruct Hinv as (_ & _ & -> & _ & _ & Hflags).
    destruct t; destruct Hflags as [-> ->]; reflexivity.
  - assert (Hinv : single_attempt caps fA cA).
    { subst cA. rewrite run_cons.
      apply single_attempt_run, single_attempt_selected, HA. }
    unfold single_attempt in Hinv. cbv zeta in Hinv.
    destruct (inflight cA) as [|t [|t' fl]] eqn:Hfl;
      [contradiction| |contradiction].
    exists t. split; [reflexivity|]. unfold FileInput_handleDrop.
    destruct (select_accepted caps fB cA HB) as (-> & _).
    now rewrite Hfl.
Qed.

(** ** The properties at concrete inputs, continued *)

Lemma handleOptimize_guard_witness :
  handleOptimize demo_caps world0 = (Returned tt, world0).
Proof.
  apply (handleOptimize_guard demo_caps world0). left. reflexivity.
Defined.



Lemma text_native_ingestion_witness :
  userCvText (ui (snd (handleFileChange demo_caps docx_alpha world0)))
    = lit "alpha" /\
  Forall (fun c => is_ocr_call c = false)
    (new_calls world0 (snd (handleFileChange demo_caps docx_alpha world0))).
Proof.
  destruct (text_native_ingestion demo_caps docx_alpha world0 (lit "alpha"))
    as (Ht & _ & _ & _ & Hc).
  - reflexivity.
  - vm_compute. reflexivity.
  - split; [exact Ht | exact Hc].
Defined.

Lemma scanned_ingestion_witness :
  userCvText (ui (snd (handleFileChange demo_caps scanned_pdf world0)))
    = lit "Jane Doe" /\
  parsingError (ui (snd (handleFileChange demo_caps scanned_pdf world0))) = None.
Proof.
  destruct (scanned_ingestion demo_caps scanned_pdf world0 (LF ++ LF)
              (lit "Jane Doe")) as (Ht & _ & He & _).
  - reflexivity.
  - vm_compute. reflexivity.
  - vm_compute. reflexivity.
  - reflexivity.
  - split; [exact Ht | exact He].
Defined.

(** A PDF of two pages with the words [A] and [B]. *)
Lemma parseFile_reads_every_page_witness :
  let file := mkFile mime_pdf (Returned [0x41; 0x42]%N) in
  fst (parseFile demo_caps file world0)
    = Returned ([0x41; 0x0A; 0x42; 0x0A]%N, true) /\
  fetched_pages (new_calls world0 (snd (parseFile demo_caps file world0)))
    = [1; 2].
Proof.
  cbv zeta.
  destruct (parseFile_reads_every_page demo_caps
              (mkFile mime_pdf (Returned [0x41; 0x42]%N)) [0x41; 0x42]%N
              (demo_pdf [0x41; 0x42]%N)
              (fun i => demo_page (nth (i - 1) [0x41; 0x42]%N 0%N))
              (fun i => [TextItemStr [nth (i - 1) [0x41; 0x42]%N 0%N]])
              world0) as (Hr & Hf & _).
  - reflexivity.
  - reflexivity.
  - reflexivity.
  - intros i Hi. simpl in Hi.
    assert (Hcases : i = 1 \/ i = 2) by lia.
    destruct Hcases as [-> | ->]; split; reflexivity.
  - split; [exact Hr | exact Hf].
Defined.

Lemma parseFile_stops_at_failing_page_witness :
  fst (parseFile torn_caps scanned_pdf world0)
    = Threw (new_Error "Page is damaged.") /\
  fetched_pages (new_calls world0 (snd (parseFile torn_caps scanned_pdf world0)))
    = [1; 2] /\
  userCvText (ui (snd (handleFileChange torn_caps scanned_pdf world0))) = [].
Proof.
  destruct (parseFile_stops_at_failing_page torn_caps scanned_pdf [0; 0]%N
              torn_pdf (fun _ => demo_page 0x41%N)
              (fun _ => [TextItemStr [0x41%N]]) 2
              (new_Error "Page is damaged.") world0)
    as (Hr & Hf & Ht & _).
  - reflexivity.
  - reflexivity.
  - reflexivity.
  - simpl. lia.
  - intros i Hi. assert (Hi1 : i = 1) by lia. subst i. split; reflexivity.
  - left. reflexivity.
  - split; [exact Hr|]. split; [exact Hf | exact Ht].
Defined.

Lemma empty_pdf_witness :
  userCvFile (ui (snd (handleFileChange pageless_caps scanned_pdf world0)))
    = Some scanned_pdf /\
  userCvText (ui (snd (handleFileChange pageless_caps scanned_pdf world0))) = [] /\
  parsingError (ui (snd (handleFileChange pageless_caps scanned_pdf world0)))
    = None.
Proof.
  destruct (empty_pdf_is_a_success_without_text pageless_caps scanned_pdf
              [0; 0]%N pageless_pdf world0) as (Hf & Ht & He & _).
  - reflexivity.
  - reflexivity.
  - reflexivity.
  - reflexivity.
  - split; [exact Hf|]. split; [exact Ht | exact He].
Defined.

Lemma pdf_open_failure_witness :
  parsingError (ui (snd (handleFileChange locked_caps scanned_pdf world0)))
    = Some msg_password /\
  new_calls world0 (snd (handleFileChange locked_caps scanned_pdf world0))
    = [CallArrayBuffer; CallGetDocument [0; 0]%N].
Proof.
  destruct (pdf_open_failure_is_classified locked_caps scanned_pdf [0; 0]%N
              (mkError true false (lit "PasswordException")
                 (lit "No password given")) world0)
    as (Hc & _ & _ & Hp & _).
  - reflexivity.
  - reflexivity.
  - reflexivity.
  - vm_compute. reflexivity.
  - vm_compute. reflexivity.
  - split; [apply Hp; reflexivity | exact Hc].
Defined.

Lemma docx_read_failure_witness :
  parsingError (ui (snd (handleFileChange broken_docx_caps docx_alpha world0)))
    = Some msg_docx_read /\
  userCvText (ui (snd (handleFileChange broken_docx_caps docx_alpha world0))) = [].
Proof.
  destruct (docx_read_failure_message broken_docx_caps docx_alpha
              (new_Error "Could not find the body element") world0)
    as (He & Ht & _).
  - reflexivity.
  - vm_compute. reflexivity.
  - reflexivity.
  - vm_compute. reflexivity.
  - vm_compute. reflexivity.
  - intros H. vm_compute in H. discriminate.
  - intros H. vm_compute in H. discriminate.
  - intros H. vm_compute in H. discriminate.
  - split; [exact He | exact Ht].
Defined.

Lemma no_optimize_after_failure_witness :
  let w := snd (handleFileChange demo_caps (mkFile mime_pdf (Returned []))
                  filled_world) in
  handleOptimize demo_caps w = (Returned tt, w).
Proof.
  cbv zeta.
  destruct (no_optimize_after_failure_or_clear demo_caps
              (mkFile mime_pdf (Returned [])) filled_world) as [H _].
  - reflexivity.
  - apply H. intros Hn. vm_compute in Hn. discriminate.
Defined.

Lemma strip_data_url_prefix_witness :
  ~ In 0x2C%N (lit "AAAA") /\
  exists pre post,
    ~ In 0x2C%N pre /\
    (lit "data:image/jpeg;base64,AAAA" = pre ++ 0x2C%N :: lit "AAAA" \/
     lit "data:image/jpeg;base64,AAAA"
     = pre ++ 0x2C%N :: lit "AAAA" ++ 0x2C%N :: post).
Proof.
  destruct (strip_data_url_prefix_edges (lit "data:image/jpeg;base64,AAAA"))
    as [_ H].
  apply (H (lit "AAAA")). reflexivity.
Defined.


(** The DOCX is cleared while it is read; its text arrives all the same. *)
Lemma clear_does_not_cancel_witness :
  let cA := run demo_caps (SelectFile docx_alpha :: map Resume [])
              (mkConfig' world0 []) in
  let c' := run demo_caps (map Resume [0]) (dispatch demo_caps ClearFile cA) in
  userCvText (alone demo_caps docx_alpha) = lit "alpha" /\
  userCvText (ui (world c')) = userCvText (alone demo_caps docx_alpha) /\
  parsingError (ui (world c')) = parsingError (alone demo_caps docx_alpha) /\
  userCvFile (ui (world c')) = None.
Proof.
  cbv zeta. split; [vm_compute; reflexivity|].
  apply (clear_does_not_cancel demo_caps docx_alpha world0 [] [0]).
  - reflexivity.
  - intros H. vm_compute in H. discriminate.
  - vm_compute. reflexivity.
Defined.

Lemma newer_docx_lowers_flags_witness :
  let c := run demo_caps [SelectFile scanned_pdf; SelectFile docx_beta; Resume 1]
             (mkConfig' world0 []) in
  inflight c = [AwaitingParseFile scanned_pdf] /\
  isParsing (ui (world c)) = false /\
  isScanning (ui (world c)) = false.
Proof.
  cbv zeta.
  destruct (newer_docx_lowers_flags demo_caps scanned_pdf docx_beta world0)
    as (Hi & Hp & Hs & _).
  - reflexivity.
  - reflexivity.
  - split; [exact Hi|]. split; [exact Hp | exact Hs].
Defined.

Lemma drop_is_not_gated_witness :
  let cA := run demo_caps [SelectFile docx_alpha] (mkConfig' world0 []) in
  FileInput_clickOpensPicker (userCvFile (ui (world cA)))
    (isParsing (ui (world cA)) || isScanning (ui (world cA)))
    (parsingError (ui (world cA))) = false /\
  exists t,
    inflight cA = [t] /\
    inflight (FileInput_handleDrop demo_caps [docx_beta; scanned_pdf] cA)
    = [t; AwaitingParseFile docx_beta].
Proof.
  cbv zeta.
  destruct (drop_is_not_gated demo_caps docx_alpha docx_beta [scanned_pdf]
              world0 []) as (_ & Hclick & Hdrop).
  - reflexivity.
  - reflexivity.
  - intros H. vm_compute in H. discriminate.
  - split; [exact Hclick | exact Hdrop].
Defined.
